(** * AmazonImageSelectInput: the image selector of the server-group wizard

    A shallow embedding of
    [app/scripts/modules/amazon/src/serverGroup/configure/AmazonImageSelectInput.tsx]
    and the properties its specification states about it.

    - JavaScript strings are [string]s, one [ascii] per code unit.
    - The [amis] object of an image is a [gmap] from region names to the
      list of identifiers of the image in that region.
    - A promise is a computation over the image reader that logs the
      requests it sends and ends fulfilled or rejected.
    - The component is a record of its props, its React state, what its Rx
      streams remember (the latest value of each side of a [combineLatest],
      the key of a [distinctUntilChanged], the value a [debounceTime] holds,
      the promise a [switchMap] listens to) and two logs: the calls of
      [props.onChange] and the requests sent to the reader. Every handler
      is a function on that record.
    - The environment decides what happens next: React renders and calls
      [componentDidUpdate], a promise settles, the debounce timer fires, the
      user types, picks an option or switches to the search, the component
      is unmounted. Each of these is an [Event], handled to its end before
      the next. The owner of the component is part of the environment: it
      hears of a selection through [onChange] and answers, when it
      chooses, with new props. *)

From Stdlib Require Import ZArith Ascii String Sorted.
From stdpp Require Import base option list strings gmap.

Local Open Scope string_scope.

(** ** JavaScript values used by the component *)

Module Js.

(** Truthiness of a string: only the empty string is falsy. *)
Definition truthy (s : string) : bool :=
  match s with
  | EmptyString => false
  | String _ _ => true
  end.

(** Truthiness of a property read [o[k]] whose values are arrays. *)
Definition isSome {A : Type} (o : option A) : bool :=
  match o with
  | Some _ => true
  | None => false
  end.

(** [s.split(sep)] for a separator of one character. *)
Fixpoint split (sep : ascii) (s : string) : list string :=
  match s with
  | EmptyString => [EmptyString]
  | String c rest =>
      if Ascii.eqb c sep then EmptyString :: split sep rest
      else match split sep rest with
           | piece :: pieces => String c piece :: pieces
           | [] => [String c EmptyString]
           end
  end.

(** [parts.slice(0, -n)]. *)
Definition slice_to_minus {A : Type} (n : nat) (parts : list A) : list A :=
  take (length parts - n)%nat parts.

(** [parts.join(sep)]. *)
Definition join (sep : string) (parts : list string) : string :=
  String.concat sep parts.

(** [s.replace(/c/g, by)]. *)
Fixpoint replace_all (c : ascii) (by_ : string) (s : string) : string :=
  match s with
  | EmptyString => EmptyString
  | String d rest =>
      if Ascii.eqb d c then by_ +:+ replace_all c by_ rest
      else String d (replace_all c by_ rest)
  end.

(** [s] without the prefix [p], when it starts with it. *)
Fixpoint strip_prefix (p s : string) : option string :=
  match p with
  | EmptyString => Some s
  | String a p' =>
      match s with
      | String b s' => if Ascii.eqb a b then strip_prefix p' s' else None
      | EmptyString => None
      end
  end.

(** The character class [[0-9a-f]]. *)
Definition lower_hex (c : ascii) : bool :=
  let n := nat_of_ascii c in
  ((48 <=? n)%nat && (n <=? 57)%nat) || ((97 <=? n)%nat && (n <=? 102)%nat).

(** The longest run of at most [most] characters of the class at the
    start of [s]: what a greedy [{_,most}] consumes. *)
Fixpoint hex_run (most : nat) (s : string) : string :=
  match most, s with
  | S most', String c rest =>
      if lower_hex c then String c (hex_run most' rest) else EmptyString
  | _, _ => EmptyString
  end.

(** [/ami-[0-9a-f]{8,17}/] tried at the start of [s]. *)
Definition ami_pattern_here (s : string) : option string :=
  match strip_prefix "ami-" s with
  | Some rest =>
      let run := hex_run 17 rest in
      if (8 <=? String.length run)%nat then Some ("ami-" +:+ run) else None
  | None => None
  end.

(** [/ami-[0-9a-f]{8,17}/.exec(s)]: the leftmost match, anywhere in [s]
    (the pattern has no anchors). *)
Fixpoint ami_pattern_exec (s : string) : option string :=
  match ami_pattern_here s with
  | Some m => Some m
  | None =>
      match s with
      | EmptyString => None
      | String _ rest => ami_pattern_exec rest
      end
  end.

(** [xs.sort(compare)]: insertion into the sorted rest, before the first
    element that does not compare below the new one (equal keys keep their
    order). *)
Fixpoint sort_insert {A : Type} (compare : A -> A -> Z) (x : A) (xs : list A)
  : list A :=
  match xs with
  | [] => [x]
  | y :: rest =>
      if (compare x y <=? 0)%Z then x :: y :: rest
      else y :: sort_insert compare x rest
  end.

Definition sort {A : Type} (compare : A -> A -> Z) (xs : list A) : list A :=
  foldr (sort_insert compare) [] xs.

End Js.

(** ** Images *)

(** Modelled from the spec: the declaration of [IAmazonImage] is in
    [amazon/image], which the component only imports. An image has a name,
    for each region the list of its backing identifiers, and a bag of
    attributes (the component writes [virtualizationType]). *)
Record Attributes := { virtualizationType : string }.

Record IAmazonImage := {
  imageName : string;
  amis : gmap string (list string);
  attributes : Attributes;
}.

(** Modelled from the spec: [Application] is declared in [@spinnaker/core];
    the component reads its [name]. *)
Record Application := { name : string }.

(** A value of type [IAmazonImage] as the component receives and reports
    it: the type is inhabited by [null] and [undefined] too. *)
Inductive ImageValue :=
| Null
| Undefined
| Obj (image : IAmazonImage).

#[global] Instance Attributes_eq_dec : EqDecision Attributes.
Proof. solve_decision. Defined.
#[global] Instance IAmazonImage_eq_dec : EqDecision IAmazonImage.
Proof. solve_decision. Defined.
#[global] Instance ImageValue_eq_dec : EqDecision ImageValue.
Proof. solve_decision. Defined.

(** [!!img.amis[region]]: the image has an entry for the region. *)
Definition hasAmiIn (region : string) (img : IAmazonImage) : bool :=
  Js.isSome (amis img !! region).

(** [makeFakeImage(imageName, imageId, region)]; [None] is [null]. *)
Definition makeFakeImage (imageName imageId region : string)
  : option IAmazonImage :=
  if negb (Js.truthy imageName) && negb (Js.truthy imageId) then None
  else
    (* assume that the specific image exists in the selected region *)
    let amis := {[ region := [imageId] ]} in
    let attributes := {| virtualizationType := "*" |} in
    Some {| imageName := imageName; amis := amis; attributes := attributes |}.

(** The query of [loadImagesFromApplicationName]. *)
Definition applicationNameQuery (application : Application) : string :=
  Js.replace_all "_" "[_\-]" (name application) +:+ "*".

(** [buildQueryForSimilarImages(imageName)]; [None] is [null]. *)
Definition buildQueryForSimilarImages (imageName : string) : option string :=
  let addDashToQuery := false in
  let packageBase := hd EmptyString (Js.split "_" imageName) in
  let parts := Js.split "-" packageBase in
  let '(packageBase, addDashToQuery) :=
    if (3 <? length parts)%nat
    then (Js.join "-" (Js.slice_to_minus 3 parts), true)
    else (packageBase, addDashToQuery) in
  let tooShort :=
    negb (Js.truthy packageBase) || (String.length packageBase <? 3)%nat in
  if tooShort then None
  else Some (packageBase +:+ (if addDashToQuery then "-*" else "*")).

(** ** Promises over the image reader *)

(** How a promise settles. *)
Inductive Outcome (A : Type) :=
| Fulfilled (a : A)
| Rejected (reason : string).
Arguments Fulfilled {A} a.
Arguments Rejected {A} reason.

(** Modelled from the spec: [AwsImageReader] is declared in [amazon/image].
    [findImages({q})] settles to a list of images, [getImage(id, region,
    credentials)] to an image ([None] is [null]); either may reject. *)
Record AwsImageReader := {
  findImages : string -> Outcome (list IAmazonImage);
  getImage : string -> string -> string -> Outcome (option IAmazonImage);
}.

(** A request sent to the reader. *)
Inductive ReaderCall :=
| FindImagesCall (q : string)
| GetImageCall (imageId region credentials : string).

(** A promise: run against the reader, it yields the requests it sent, in
    order, and how it settled. *)
Definition IPromise (A : Type) : Type :=
  AwsImageReader -> list ReaderCall * Outcome A.

Module Q.

(** [$q.when(a)]. *)
Definition when {A : Type} (a : A) : IPromise A :=
  fun _ => ([], Fulfilled a).

(** [p.then(f)]. *)
Definition and_then {A B : Type} (p : IPromise A) (f : A -> IPromise B)
  : IPromise B :=
  fun reader =>
    match p reader with
    | (sent, Fulfilled a) =>
        let '(sent', settled) := f a reader in ((sent ++ sent')%list, settled)
    | (sent, Rejected reason) => (sent, Rejected reason)
    end.

(** [p.catch(h)]. *)
Definition catch {A : Type} (p : IPromise A) (h : string -> IPromise A)
  : IPromise A :=
  fun reader =>
    match p reader with
    | (sent, Fulfilled a) => (sent, Fulfilled a)
    | (sent, Rejected reason) =>
        let '(sent', settled) := h reason reader in ((sent ++ sent')%list, settled)
    end.

(** [awsImageReader.findImages({ q })]. *)
Definition findImages (q : string) : IPromise (list IAmazonImage) :=
  fun reader => ([FindImagesCall q], findImages reader q).

(** [awsImageReader.getImage(imageId, region, credentials)]. *)
Definition getImage (imageId region credentials : string)
  : IPromise (option IAmazonImage) :=
  fun reader =>
    ([GetImageCall imageId region credentials],
     getImage reader imageId region credentials).

End Q.

Section Loading.

(** [a.localeCompare(b)] depends on the locale of the browser. *)
Variable localeCompare : string -> string -> Z.

Definition loadImagesFromApplicationName (application : Application)
  : IPromise (list IAmazonImage) :=
  let query := applicationNameQuery application in
  Q.findImages query.

(** [findImagesSimilarTo(exactImage)]; [None] is [null]. *)
Definition findImagesSimilarTo (exactImage : option IAmazonImage)
  : IPromise (list IAmazonImage) :=
  match exactImage with
  | None => Q.when []
  | Some exactImage =>
      let similarImagesQuery :=
        buildQueryForSimilarImages (imageName exactImage) in
      match similarImagesQuery with
      | None => Q.when [exactImage]
      | Some similarImagesQuery =>
          Q.and_then (Q.findImages similarImagesQuery) (fun similarImages =>
          let similarImages :=
            if negb (Js.isSome
                       (List.find
                          (fun image =>
                             negb (String.eqb (imageName image)
                                             (imageName exactImage)))
                          similarImages))
            then
              (* findImages has a limit of 1000 and may not always include
                 the current image, which is confusing *)
              (similarImages ++ [exactImage])%list
            else similarImages in
          Q.when
            (Js.sort
               (fun a b => localeCompare (imageName a) (imageName b))
               similarImages))
      end
  end.

Definition loadImagesFromImageId (imageId region credentials : string)
  : IPromise (list IAmazonImage) :=
  Q.catch
    (Q.and_then (Q.getImage imageId region credentials)
       (fun image => findImagesSimilarTo image))
    (fun _ => Q.when []).

Definition searchForImages (query : string) : IPromise (list IAmazonImage) :=
  let hasMinLength :=
    Js.truthy query && (3 <=? String.length query)%nat in
  if hasMinLength then Q.findImages query else Q.when [].

(** [value && value.amis && value.amis[region] && value.amis[region][0]],
    when it is truthy. *)
Definition firstAmiIn (region : string) (value : ImageValue) : option string :=
  match value with
  | Obj image =>
      match amis image !! region with
      | Some (imageId :: _) =>
          if Js.truthy imageId then Some imageId else None
      | _ => None
      end
  | _ => None
  end.

Definition fetchPackageImages (value : ImageValue)
  (region credentials : string) (application : Application)
  : IPromise (list IAmazonImage) :=
  let imageId := firstAmiIn region value in
  match imageId with
  | Some imageId => loadImagesFromImageId imageId region credentials
  | None => loadImagesFromApplicationName application
  end.

End Loading.

(** ** The component *)

Record IAmazonImageSelectorProps := {
  value : ImageValue;
  application : Application;
  credentials : string;
  region : string;
}.

Inductive SelectionMode :=
| packageImagesMode
| searchAllImagesMode.

(** The React state; [None] is [null]. *)
Record IAmazonImageSelectorState := {
  errorMessage : option string;
  selectionMode : SelectionMode;
  searchString : string;
  searchResults : option (list IAmazonImage);
  isSearching : bool;
  packageImages : option (list IAmazonImage);
  isLoadingPackageImages : bool;
}.

(** The subscription [packageImagesInRegion$.map(...)] that the [switchMap]
    on [region$] holds in package mode. It subscribes to [packageImages$]
    and to [region$] anew, so it has its own latest values. *)
Record InnerSubscription := {
  inner_image : ImageValue;
  inner_packageImages : option (list IAmazonImage);
  inner_region : option string;
}.

(** What the streams built in [componentDidMount] remember. *)
Record Streams := {
  (* region$: the last value let through by distinctUntilChanged; the three
     subscriptions made in componentDidMount see the same values *)
  latestRegion : option string;
  (* how the promise of fetchPackageImages settles *)
  packagePromise : Outcome (list IAmazonImage);
  (* packageImages$: its value, once the promise has settled *)
  latestPackageImages : option (list IAmazonImage);
  (* searchString$: last value let through by distinctUntilChanged *)
  lastSearchInput : option string;
  (* the value debounceTime(250) holds back *)
  debouncing : option string;
  (* the promise the switchMap of searchImages$ listens to *)
  searchInFlight : option (Outcome (list IAmazonImage));
  (* catch has replaced searchImages$ by Observable.of([]) *)
  searchCaught : bool;
  (* searchImages$: its latest value *)
  latestSearchImages : option (list IAmazonImage);
  regionInner : option InnerSubscription;
  (* destroy$ has fired *)
  destroyed : bool;
}.

(** A call of [props.onChange], with the region of the props at that time. *)
Record Report := {
  at_region : string;
  reported : ImageValue;
}.

Record Component := {
  props : IAmazonImageSelectorProps;
  state : IAmazonImageSelectorState;
  streams : Streams;
  onChangeLog : list Report;
  readerLog : list ReaderCall;
}.

Definition with_props (p : IAmazonImageSelectorProps) (c : Component) :=
  {| props := p; state := state c; streams := streams c;
     onChangeLog := onChangeLog c; readerLog := readerLog c |}.

Definition with_state (s : IAmazonImageSelectorState) (c : Component) :=
  {| props := props c; state := s; streams := streams c;
     onChangeLog := onChangeLog c; readerLog := readerLog c |}.

Definition with_streams (s : Streams) (c : Component) :=
  {| props := props c; state := state c; streams := s;
     onChangeLog := onChangeLog c; readerLog := readerLog c |}.

(** [this.setState({ key: v })], one definition per key the component sets. *)
Definition setState_errorMessage (v : option string) (c : Component) : Component :=
  let s := state c in
  with_state
    {| errorMessage := v; selectionMode := selectionMode s;
       searchString := searchString s; searchResults := searchResults s;
       isSearching := isSearching s; packageImages := packageImages s;
       isLoadingPackageImages := isLoadingPackageImages s |} c.

Definition setState_selectionMode (v : SelectionMode) (c : Component) : Component :=
  let s := state c in
  with_state
    {| errorMessage := errorMessage s; selectionMode := v;
       searchString := searchString s; searchResults := searchResults s;
       isSearching := isSearching s; packageImages := packageImages s;
       isLoadingPackageImages := isLoadingPackageImages s |} c.

Definition setState_searchString (v : string) (c : Component) : Component :=
  let s := state c in
  with_state
    {| errorMessage := errorMessage s; selectionMode := selectionMode s;
       searchString := v; searchResults := searchResults s;
       isSearching := isSearching s; packageImages := packageImages s;
       isLoadingPackageImages := isLoadingPackageImages s |} c.

Definition setState_searchResults (v : option (list IAmazonImage)) (c : Component) : Component :=
  let s := state c in
  with_state
    {| errorMessage := errorMessage s; selectionMode := selectionMode s;
       searchString := searchString s; searchResults := v;
       isSearching := isSearching s; packageImages := packageImages s;
       isLoadingPackageImages := isLoadingPackageImages s |} c.

Definition setState_isSearching (v : bool) (c : Component) : Component :=
  let s := state c in
  with_state
    {| errorMessage := errorMessage s; selectionMode := selectionMode s;
       searchString := searchString s; searchResults := searchResults s;
       isSearching := v; packageImages := packageImages s;
       isLoadingPackageImages := isLoadingPackageImages s |} c.

Definition setState_packageImages (v : option (list IAmazonImage)) (c : Component) : Component :=
  let s := state c in
  with_state
    {| errorMessage := errorMessage s; selectionMode := selectionMode s;
       searchString := searchString s; searchResults := searchResults s;
       isSearching := isSearching s; packageImages := v;
       isLoadingPackageImages := isLoadingPackageImages s |} c.

Definition setState_isLoadingPackageImages (v : bool) (c : Component) : Component :=
  let s := state c in
  with_state
    {| errorMessage := errorMessage s; selectionMode := selectionMode s;
       searchString := searchString s; searchResults := searchResults s;
       isSearching := isSearching s; packageImages := packageImages s;
       isLoadingPackageImages := v |} c.

(** Updates of what the streams remember. *)
Definition set_latestRegion (v : option string) (c : Component) : Component :=
  let s := streams c in
  with_streams
    {| latestRegion := v; packagePromise := packagePromise s;
       latestPackageImages := latestPackageImages s;
       lastSearchInput := lastSearchInput s; debouncing := debouncing s;
       searchInFlight := searchInFlight s; searchCaught := searchCaught s;
       latestSearchImages := latestSearchImages s;
       regionInner := regionInner s; destroyed := destroyed s |} c.

Definition set_latestPackageImages (v : option (list IAmazonImage)) (c : Component) : Component :=
  let s := streams c in
  with_streams
    {| latestRegion := latestRegion s; packagePromise := packagePromise s;
       latestPackageImages := v; lastSearchInput := lastSearchInput s;
       debouncing := debouncing s; searchInFlight := searchInFlight s;
       searchCaught := searchCaught s;
       latestSearchImages := latestSearchImages s;
       regionInner := regionInner s; destroyed := destroyed s |} c.

Definition set_lastSearchInput (v : option string) (c : Component) : Component :=
  let s := streams c in
  with_streams
    {| latestRegion := latestRegion s; packagePromise := packagePromise s;
       latestPackageImages := latestPackageImages s; lastSearchInput := v;
       debouncing := debouncing s; searchInFlight := searchInFlight s;
       searchCaught := searchCaught s;
       latestSearchImages := latestSearchImages s;
       regionInner := regionInner s; destroyed := destroyed s |} c.

Definition set_debouncing (v : option string) (c : Component) : Component :=
  let s := streams c in
  with_streams
    {| latestRegion := latestRegion s; packagePromise := packagePromise s;
       latestPackageImages := latestPackageImages s;
       lastSearchInput := lastSearchInput s; debouncing := v;
       searchInFlight := searchInFlight s; searchCaught := searchCaught s;
       latestSearchImages := latestSearchImages s;
       regionInner := regionInner s; destroyed := destroyed s |} c.

Definition set_searchInFlight (v : option (Outcome (list IAmazonImage))) (c : Component) : Component :=
  let s := streams c in
  with_streams
    {| latestRegion := latestRegion s; packagePromise := packagePromise s;
       latestPackageImages := latestPackageImages s;
       lastSearchInput := lastSearchInput s; debouncing := debouncing s;
       searchInFlight := v; searchCaught := searchCaught s;
       latestSearchImages := latestSearchImages s;
       regionInner := regionInner s; destroyed := destroyed s |} c.

Definition set_searchCaught (v : bool) (c : Component) : Component :=
  let s := streams c in
  with_streams
    {| latestRegion := latestRegion s; packagePromise := packagePromise s;
       latestPackageImages := latestPackageImages s;
       lastSearchInput := lastSearchInput s; debouncing := debouncing s;
       searchInFlight := searchInFlight s; searchCaught := v;
       latestSearchImages := latestSearchImages s;
       regionInner := regionInner s; destroyed := destroyed s |} c.

Definition set_latestSearchImages (v : option (list IAmazonImage)) (c : Component) : Component :=
  let s := streams c in
  with_streams
    {| latestRegion := latestRegion s; packagePromise := packagePromise s;
       latestPackageImages := latestPackageImages s;
       lastSearchInput := lastSearchInput s; debouncing := debouncing s;
       searchInFlight := searchInFlight s; searchCaught := searchCaught s;
       latestSearchImages := v; regionInner := regionInner s;
       destroyed := destroyed s |} c.

Definition set_regionInner (v : option InnerSubscription) (c : Component) : Component :=
  let s := streams c in
  with_streams
    {| latestRegion := latestRegion s; packagePromise := packagePromise s;
       latestPackageImages := latestPackageImages s;
       lastSearchInput := lastSearchInput s; debouncing := debouncing s;
       searchInFlight := searchInFlight s; searchCaught := searchCaught s;
       latestSearchImages := latestSearchImages s; regionInner := v;
       destroyed := destroyed s |} c.

Definition set_destroyed (v : bool) (c : Component) : Component :=
  let s := streams c in
  with_streams
    {| latestRegion := latestRegion s; packagePromise := packagePromise s;
       latestPackageImages := latestPackageImages s;
       lastSearchInput := lastSearchInput s; debouncing := debouncing s;
       searchInFlight := searchInFlight s; searchCaught := searchCaught s;
       latestSearchImages := latestSearchImages s;
       regionInner := regionInner s; destroyed := v |} c.

(** [images.find(img => selectedImage && selectedImage.imageName ===
    img.imageName)]; nothing found is [undefined]. *)
Definition findMatchingImage (images : list IAmazonImage)
  (selectedImage : ImageValue) : ImageValue :=
  match
    List.find
      (fun img =>
         match selectedImage with
         | Obj selected => String.eqb (imageName selected) (imageName img)
         | _ => false
         end)
      images
  with
  | Some img => Obj img
  | None => Undefined
  end.

(** The projection of [packageImagesInRegion$]. *)
Definition packageImagesInRegion (packageImages : list IAmazonImage)
  (latestRegion : string) : list IAmazonImage :=
  List.filter (fun img => hasAmiIn latestRegion img) packageImages.

(** The projection of [searchImagesInRegion$]; [searchString] is read from
    the state. *)
Definition searchImagesInRegion (searchString : string)
  (searchResults : list IAmazonImage) (latestRegion : string)
  : list IAmazonImage :=
  (* allow 'advanced' users to continue with just an ami id (backing image
     may not have been indexed yet) *)
  if (length searchResults =? 0)%nat
     && Js.isSome (Js.ami_pattern_exec searchString)
  then
    let fakeImage := makeFakeImage searchString searchString latestRegion in
    match fakeImage with
    | Some image => [image]
    | None => []
    end
  else
    (* Filter down to only images which have an ami in the currently
       selected region *)
    List.filter (fun img => hasAmiIn latestRegion img) searchResults.

(** What the select offers: [options] of the branch that [render] takes;
    the select of the third branch is disabled. *)
Definition renderedOptions (s : IAmazonImageSelectorState)
  : list IAmazonImage :=
  match selectionMode s with
  | searchAllImagesMode => default [] (searchResults s)
  | packageImagesMode => default [] (packageImages s)
  end.

(** What happens to a mounted component. React calls [componentDidUpdate]
    after every render, with changed props or not; promises settle and the
    debounce timer fires when the environment decides. *)
Inductive Event :=
| DidUpdate (p : IAmazonImageSelectorProps)
| PackagesSettled
| InnerPackagesSettled
| InputChange (searchInput : string)
| DebounceElapsed
| SearchSettled
| SearchAllImagesClicked
| OptionPicked (n : nat)
| WillUnmount.

Section Component.

Variable localeCompare : string -> string -> Z.

(** [a === b] on two image objects: whether they are the same object. The
    embedding keeps the contents of an image only, so identity is left
    to the context. *)
Variable sameObject : IAmazonImage -> IAmazonImage -> bool.

Definition strictEq (a b : ImageValue) : bool :=
  match a, b with
  | Null, Null => true
  | Undefined, Undefined => true
  | Obj x, Obj y => sameObject x y
  | _, _ => false
  end.

(** [this.props.onChange(image)]: the owner is told; what it does with it
    arrives as new props. *)
Definition onChange (image : ImageValue) (c : Component) : Component :=
  {| props := props c; state := state c; streams := streams c;
     onChangeLog :=
       (onChangeLog c
          ++ [{| at_region := region (props c); reported := image |}])%list;
     readerLog := readerLog c |}.

Definition selectImage (selectedImage : ImageValue) (c : Component)
  : Component :=
  if negb (strictEq (value (props c)) selectedImage)
  then onChange selectedImage c
  else c.

(** The subscriber of [searchImagesInRegion$], run when [combineLatest]
    has a value from both sides. *)
Definition searchImagesInRegion_next (c : Component) : Component :=
  match latestSearchImages (streams c), latestRegion (streams c) with
  | Some searchResults, Some latestRegion =>
      setState_searchResults
        (Some (searchImagesInRegion (searchString (state c))
                 searchResults latestRegion)) c
  | _, _ => c
  end.

(** The subscriber of [packageImagesInRegion$] made in
    [componentDidMount]. *)
Definition packageImagesInRegion_next (c : Component) : Component :=
  match latestPackageImages (streams c), latestRegion (streams c) with
  | Some packageImages, Some latestRegion =>
      let packageImages :=
        packageImagesInRegion packageImages latestRegion in
      let c := setState_packageImages (Some packageImages) c in
      selectImage (findMatchingImage packageImages (value (props c))) c
  | _, _ => c
  end.

(** The inner subscription of the [switchMap] on [region$], run when its
    own [combineLatest] has a value from both sides. *)
Definition regionInner_next (c : Component) : Component :=
  match regionInner (streams c) with
  | Some inner =>
      match inner_packageImages inner, inner_region inner with
      | Some packageImages, Some latestRegion =>
          selectImage
            (findMatchingImage
               (packageImagesInRegion packageImages latestRegion)
               (inner_image inner)) c
      | _, _ => c
      end
  | None => c
  end.

(** The [switchMap] on [region$]: the previous inner subscription is
    dropped and the projection runs. *)
Definition region_switchMap (selectedRegion : string) (c : Component)
  : Component :=
  let image := value (props c) in
  match selectionMode (state c) with
  | packageImagesMode =>
      (* in packageImages mode, wait for the packageImages to load then
         find the matching one, or undefined *)
      set_regionInner
        (Some {| inner_image := image; inner_packageImages := None;
                 inner_region := None |}) c
  | searchAllImagesMode =>
      (* in searchImages mode, return undefined if the selected image is
         not found in the new region *)
      let hasAmiInRegion :=
        match image with
        | Obj img => hasAmiIn selectedRegion img
        | _ => false
        end in
      selectImage (if hasAmiInRegion then image else Undefined)
        (set_regionInner None c)
  end.

(** [region$] of the inner subscription: it was subscribed after the last
    value went by, so the first value it sees is new to it. *)
Definition regionInner_region (r : string) (c : Component) : Component :=
  match regionInner (streams c) with
  | Some inner =>
      if decide (inner_region inner = Some r) then c
      else
        regionInner_next
          (set_regionInner
             (Some {| inner_image := inner_image inner;
                      inner_packageImages := inner_packageImages inner;
                      inner_region := Some r |}) c)
  | None => c
  end.

(** [componentDidUpdate()]: [this.props$.next(this.props)]. The
    subscribers of [props$] run in the order they subscribed: the
    [region$] of [searchImagesInRegion$], of [packageImagesInRegion$], of
    the [switchMap], then that of the inner subscription if it is still
    subscribed. *)
Definition componentDidUpdate (p : IAmazonImageSelectorProps)
  (c : Component) : Component :=
  if destroyed (streams c) then c
  else
    let c := with_props p c in
    if decide (latestRegion (streams c) = Some (region p))
    then regionInner_region (region p) c
    else
      let c := set_latestRegion (Some (region p)) c in
      let c := searchImagesInRegion_next c in
      let c := packageImagesInRegion_next c in
      region_switchMap (region p) c.

(** [packageImages$] from the promise on: [catch], then [do]. *)
Definition packageImages_settle (c : Component)
  : Component * list IAmazonImage :=
  let '(c, images) :=
    match packagePromise (streams c) with
    | Fulfilled images => (c, images)
    | Rejected err =>
        (setState_errorMessage (Some "Unable to load package images") c, [])
    end in
  (setState_isLoadingPackageImages false c, images).

(** The promise of [fetchPackageImages] settles and the subscription made
    in [componentDidMount] hears of it. *)
Definition packageImages_settled (c : Component) : Component :=
  if destroyed (streams c) then c
  else
    match latestPackageImages (streams c) with
    | Some _ => c
    | None =>
        let '(c, images) := packageImages_settle c in
        packageImagesInRegion_next (set_latestPackageImages (Some images) c)
    end.

(** The inner subscription hears of the settled promise, after the
    subscription made in [componentDidMount]: with it, or later if it
    subscribed to a promise that had settled. *)
Definition innerPackageImages_settled (c : Component) : Component :=
  if destroyed (streams c) then c
  else
    match regionInner (streams c), latestPackageImages (streams c) with
    | Some inner, Some _ =>
        match inner_packageImages inner with
        | Some _ => c
        | None =>
            let '(c, images) := packageImages_settle c in
            regionInner_next
              (set_regionInner
                 (Some {| inner_image := inner_image inner;
                          inner_packageImages := Some images;
                          inner_region := inner_region inner |}) c)
        end
    | _, _ => c
    end.

(** [this.searchInput$.next(searchInput)]: [do], [distinctUntilChanged],
    and into [debounceTime]. *)
Definition searchInput_next (searchInput : string) (c : Component)
  : Component :=
  if destroyed (streams c) || searchCaught (streams c) then c
  else
    let c := setState_searchString searchInput c in
    if decide (lastSearchInput (streams c) = Some searchInput) then c
    else set_debouncing (Some searchInput)
           (set_lastSearchInput (Some searchInput) c).

(** The debounce timer fires: [do], and the [switchMap] to
    [searchForImages]. *)
Definition debounce_elapsed (reader : AwsImageReader) (c : Component)
  : Component :=
  if destroyed (streams c) || searchCaught (streams c) then c
  else
    match debouncing (streams c) with
    | None => c
    | Some searchString =>
        let c := set_debouncing None c in
        let c := setState_isSearching true c in
        let '(sent, settled) := searchForImages searchString reader in
        let c := set_searchInFlight (Some settled) c in
        {| props := props c; state := state c; streams := streams c;
           onChangeLog := onChangeLog c;
           readerLog := (readerLog c ++ sent)%list |}
    end.

(** The promise of the latest search settles: [catch], [do], and into
    [combineLatest]. *)
Definition searchImages_settled (c : Component) : Component :=
  if destroyed (streams c) || searchCaught (streams c) then c
  else
    match searchInFlight (streams c) with
    | None => c
    | Some settled =>
        let c := set_searchInFlight None c in
        let '(c, images) :=
          match settled with
          | Fulfilled images => (c, images)
          | Rejected err =>
              (set_searchCaught true
                 (set_debouncing None
                    (setState_errorMessage
                       (Some "Unable to search for images") c)), [])
          end in
        let c := setState_isSearching false c in
        searchImagesInRegion_next (set_latestSearchImages (Some images) c)
    end.

(** The user picks the [n]th option of the select: [onChange] is passed
    to it as it is. *)
Definition option_picked (n : nat) (c : Component) : Component :=
  if destroyed (streams c) then c
  else
    match renderedOptions (state c) !! n with
    | Some image => onChange (Obj image) c
    | None => c
    end.

Definition componentWillUnmount (c : Component) : Component :=
  set_destroyed true c.

(** [componentDidMount()], on the props the component was created with. *)
Definition componentDidMount (reader : AwsImageReader)
  (p : IAmazonImageSelectorProps) : Component :=
  let '(sent, settled) :=
    fetchPackageImages localeCompare (value p) (region p) (credentials p)
      (application p) reader in
  {| props := p;
     state :=
       {| errorMessage := None; selectionMode := packageImagesMode;
          searchString := ""; searchResults := None; isSearching := false;
          packageImages := None; isLoadingPackageImages := true |};
     streams :=
       {| latestRegion := None; packagePromise := settled;
          latestPackageImages := None; lastSearchInput := None;
          debouncing := None; searchInFlight := None;
          searchCaught := false; latestSearchImages := None;
          regionInner := None; destroyed := false |};
     onChangeLog := [];
     readerLog := sent |}.

Definition step (reader : AwsImageReader) (e : Event) (c : Component)
  : Component :=
  match e with
  | DidUpdate p => componentDidUpdate p c
  | PackagesSettled => packageImages_settled c
  | InnerPackagesSettled => innerPackageImages_settled c
  | InputChange searchInput => searchInput_next searchInput c
  | DebounceElapsed => debounce_elapsed reader c
  | SearchSettled => searchImages_settled c
  | SearchAllImagesClicked =>
      if destroyed (streams c) then c
      else setState_selectionMode searchAllImagesMode c
  | OptionPicked n => option_picked n c
  | WillUnmount => componentWillUnmount c
  end.

(** The component after [componentDidMount] and a sequence of events,
    each with the reader as it answers at that time. *)
Definition run (mountReader : AwsImageReader)
  (p : IAmazonImageSelectorProps)
  (events : list (AwsImageReader * Event)) : Component :=
  foldl (fun c '(reader, e) => step reader e c)
    (componentDidMount mountReader p) events.

End Component.

(** ** What [render] shows *)

(** The props [render] passes to [TetheredSelect] that differ between its
    three branches; [None] is a prop left out. *)
Record TetheredSelect := {
  select_value : ImageValue;
  select_isLoading : bool;
  select_placeholder : option string;
  select_disabled : bool;
  select_noResultsText : option string;
  (* options; None is null *)
  select_options : option (list IAmazonImage);
  (* onInputChange is passed: what is typed goes to searchInput$ *)
  select_onInputChange : bool;
}.

(** What [render] returns: the select, the validation message under it, and
    whether the [Search All Images] button is there. *)
Record Rendered := {
  rendered_select : TetheredSelect;
  rendered_error : option string;
  rendered_searchAllImages : bool;
}.

(** [ImageOptionRenderer(image)]: the name and the message beside it. *)
Definition ImageOptionRenderer (credentials region : string)
  (image : IAmazonImage) : string * string :=
  let imageIdForSelectedRegion := firstAmiIn region (Obj image) in
  let message :=
    match imageIdForSelectedRegion with
    | Some imageIdForSelectedRegion =>
        "(" +:+ imageIdForSelectedRegion +:+ ")"
    | None => " - not found in " +:+ credentials +:+ "/" +:+ region
    end in
  (imageName image, message).

(** [render()]. *)
Definition render (p : IAmazonImageSelectorProps)
  (s : IAmazonImageSelectorState) : Rendered :=
  let isPackageImagesLoaded := Js.isSome (packageImages s) in
  let error :=
    match errorMessage s with
    | Some message => if Js.truthy message then Some message else None
    | None => None
    end in
  let noResultsText :=
    "No results found in " +:+ credentials p +:+ "/" +:+ region p in
  match selectionMode s with
  | searchAllImagesMode =>
      (* User can search for any image using the typeahead *)
      let lessThanThreeChars :=
        negb (Js.truthy (searchString s))
        || (String.length (searchString s) <? 3)%nat in
      let searchNoResultsText :=
        if lessThanThreeChars then "Please enter at least 3 characters"
        else if isSearching s then "Searching..."
        else noResultsText in
      {| rendered_select :=
           {| select_value := value p;
              select_isLoading := isSearching s;
              select_placeholder := Some "Search for an image...";
              select_disabled := false;
              select_noResultsText := Some searchNoResultsText;
              select_options := searchResults s;
              select_onInputChange := true |};
         rendered_error := error;
         rendered_searchAllImages := false |}
  | packageImagesMode =>
      if isPackageImagesLoaded then
        (* User can pick an image from the preloaded 'packageImages' *)
        {| rendered_select :=
             {| select_value := value p;
                select_isLoading := isLoadingPackageImages s;
                select_placeholder := Some "Pick an image";
                select_disabled := false;
                select_noResultsText := Some noResultsText;
                select_options := packageImages s;
                select_onInputChange := false |};
           rendered_error := error;
           rendered_searchAllImages := true |}
      else
        (* Show a disabled react-select while waiting for 'packageImages'
           to load *)
        {| rendered_select :=
             {| select_value := value p;
                select_isLoading := isLoadingPackageImages s;
                select_placeholder := None;
                select_disabled := true;
                select_noResultsText := None;
                select_options :=
                  Some match value p with
                       | Obj image => [image]
                       | _ => []
                       end;
                select_onInputChange := false |};
           rendered_error := error;
           rendered_searchAllImages := true |}
  end.

(** ** Vocabulary of the properties *)

(** The base and dash flag that [buildQueryForSimilarImages] has computed
    when it tests [tooShort]. *)
Definition packageBaseOf (imageName : string) : string * bool :=
  let packageBase := hd EmptyString (Js.split "_" imageName) in
  let parts := Js.split "-" packageBase in
  if (3 <? length parts)%nat
  then (Js.join "-" (Js.slice_to_minus 3 parts), true)
  else (packageBase, false).

(** The hyphen-delimited segments of the part of a name before its first
    underscore. *)
Definition segmentsOf (imageName : string) : list string :=
  Js.split "-" (hd EmptyString (Js.split "_" imageName)).



(** What [packageImages$] emits for a settled promise: [catch] turns a
    rejection into the empty list. *)
Definition settledImages (settled : Outcome (list IAmazonImage))
  : list IAmazonImage :=
  match settled with
  | Fulfilled images => images
  | Rejected _ => []
  end.

(** [!!(image && image.amis && image.amis[region])]. *)
Definition hasAmiInRegion (region : string) (image : ImageValue) : bool :=
  match image with
  | Obj img => hasAmiIn region img
  | _ => false
  end.

(** The image synthesized for a raw identifier. *)
Definition fakeImageFor (searchString region : string) : IAmazonImage :=
  {| imageName := searchString;
     amis := {[ region := [searchString] ]};
     attributes := {| virtualizationType := "*" |} |}.






(** ** Concrete contexts, for running the definitions *)

(** A comparison of names by code units. *)
Definition codeUnitCompare (a b : string) : Z :=
  match String.compare a b with
  | Eq => 0%Z
  | Lt => (-1)%Z
  | Gt => 1%Z
  end.

(** Identity of objects when no two objects have the same contents. *)
Definition sameContents (a b : IAmazonImage) : bool := bool_decide (a = b).

Definition image (imageName : string) (amis : gmap string (list string))
  : IAmazonImage :=
  {| imageName := imageName; amis := amis;
     attributes := {| virtualizationType := "hvm" |} |}.

(** A reader with fixed answers. *)
Definition readerOf (found : Outcome (list IAmazonImage))
  (got : Outcome (option IAmazonImage)) : AwsImageReader :=
  {| findImages := fun _ => found; getImage := fun _ _ _ => got |}.

Definition propsOf (value : ImageValue) (region : string)
  : IAmazonImageSelectorProps :=
  {| value := value; application := {| name := "my_app" |};
     credentials := "test"; region := region |}.

(** ** Properties *)

Example query_of_documented_name :
  buildQueryForSimilarImages "myapp-1.0-1234-x86_64" = Some "myapp-*".
Proof. reflexivity. Qed.

Example query_of_short_prefix : buildQueryForSimilarImages "ab-1-2-3" = None.
Proof. reflexivity. Qed.

Example query_of_application : applicationNameQuery {| name := "foo_bar" |} = "foo[_\-]bar*".
Proof. reflexivity. Qed.

Example pattern_found_inside :
  Js.ami_pattern_exec "xami-0123456789abcdef0123456789" = Some "ami-0123456789abcdef0".
Proof. reflexivity. Qed.

(** *** Strings *)

Lemma split_nonempty sep s : Js.split sep s <> [].
Proof.
  destruct s as [|c rest]; simpl; [discriminate|].
  destruct (Ascii.eqb c sep); [discriminate|].
  destruct (Js.split sep rest); discriminate.
Qed.

Lemma truthy_false_iff s : Js.truthy s = false <-> s = "".
Proof. destruct s; simpl; split; congruence. Qed.

Lemma tooShort_is_length s :
  negb (Js.truthy s) || (String.length s <? 3)%nat = (String.length s <? 3)%nat.
Proof. destruct s; reflexivity. Qed.

(** [buildQueryForSimilarImages] in two halves: the base, then the test. *)
Lemma buildQuery_by_base imageName :
  buildQueryForSimilarImages imageName =
    if (String.length (packageBaseOf imageName).1 <? 3)%nat then None
    else Some ((packageBaseOf imageName).1
                 +:+ (if (packageBaseOf imageName).2 then "-*" else "*")).
Proof.
  unfold buildQueryForSimilarImages, packageBaseOf.
  destruct (3 <? _)%nat; cbn [fst snd]; now rewrite tooShort_is_length.
Qed.

(** *** makeFakeImage *)

(** C10. [makeFakeImage(imageName, imageId, region)] is [null] exactly when
    both [imageName] and [imageId] are falsy (empty); otherwise it is the
    image named [imageName] whose [amis] has the single key [region], bound
    to the one-element list [[imageId]], and whose
    [attributes.virtualizationType] is ['*']. *)
Theorem makeFakeImage_null_or_single_region (name id region : string) :
  (makeFakeImage name id region = None <-> name = "" /\ id = "")
  /\ (~ (name = "" /\ id = "") ->
      exists fake,
        makeFakeImage name id region = Some fake
        /\ amis fake = {[ region := [id] ]}
        /\ dom (amis fake) = ({[ region ]} : gset string)
        /\ amis fake !! region = Some [id]
        /\ virtualizationType (attributes fake) = "*"
        /\ imageName fake = name).
Proof.
  unfold makeFakeImage. split.
  - destruct name, id; simpl; split; intros H; try discriminate; auto;
      destruct H; discriminate.
  - intros Hnot.
    assert (negb (Js.truthy name) && negb (Js.truthy id) = false) as ->.
    { destruct name, id; simpl; auto. exfalso. auto. }
    eexists. split; [reflexivity|]. simpl.
    repeat split.
    + apply dom_singleton_L.
    + apply lookup_singleton_eq.
Qed.

Lemma makeFakeImage_null_or_single_region_witness :
  ~ ("ami-0123abcd" = "" /\ "ami-0123abcd" = "")
  /\ exists fake,
      makeFakeImage "ami-0123abcd" "ami-0123abcd" "us-west-2" = Some fake
      /\ amis fake !! "us-west-2" = Some ["ami-0123abcd"].
Proof.
  assert (~ ("ami-0123abcd" = "" /\ "ami-0123abcd" = "")) as Hnot
    by (intros [H _]; discriminate H).
  split; [exact Hnot|].
  destruct (proj2 (makeFakeImage_null_or_single_region
                     "ami-0123abcd" "ami-0123abcd" "us-west-2") Hnot)
    as (fake & Hfake & _ & _ & Hlookup & _).
  exists fake. split; assumption.
Defined.

(** *** buildQueryForSimilarImages *)

(** C3, as the code has it. When the part of an image name before its first
    underscore splits on hyphens into more than 3 segments, the derivation
    drops the last 3 segments; the query is what remains followed by a
    dash and a wildcard when that has at least 3 characters, and [null]
    when it is shorter. The name [myapp-1.0-1234-x86_64] yields
    [myapp-*]. *)
Theorem similar_query_drops_three_segments (name : string) :
  (3 < length (segmentsOf name))%nat ->
  let kept := Js.join "-" (Js.slice_to_minus 3 (segmentsOf name)) in
  buildQueryForSimilarImages name =
    (if (String.length kept <? 3)%nat then None else Some (kept +:+ "-*"))
  /\ buildQueryForSimilarImages "myapp-1.0-1234-x86_64" = Some "myapp-*".
Proof.
  intros Hlong kept. split; [|reflexivity].
  rewrite buildQuery_by_base. unfold packageBaseOf.
  fold (segmentsOf name).
  apply Nat.ltb_lt in Hlong. rewrite Hlong. reflexivity.
Qed.

Lemma similar_query_drops_three_segments_witness :
  buildQueryForSimilarImages "spinnaker-deck-2.1-77-trusty" =
    Some "spinnaker-deck-*".
Proof.
  refine (proj1 (similar_query_drops_three_segments
                   "spinnaker-deck-2.1-77-trusty" _)).
  vm_compute. lia.
Defined.

(** C3, as stated, fails: [ab-1-2-3] has 4 segments, and the query is not
    its first segment with a dash and a wildcard (it is [null]). *)
Lemma similar_query_short_prefix_is_null :
  (3 < length (segmentsOf "ab-1-2-3"))%nat
  /\ Js.join "-" (Js.slice_to_minus 3 (segmentsOf "ab-1-2-3")) = "ab"
  /\ buildQueryForSimilarImages "ab-1-2-3" <> Some "ab-*"
  /\ buildQueryForSimilarImages "ab-1-2-3" = None.
Proof. vm_compute. repeat split; [lia | discriminate]. Qed.

(** C7. The query of an image name is a function of the name. When the
    part before the first underscore has fewer than 4 hyphen-delimited
    segments it is not truncated: the query is that part followed by a
    wildcard. Whenever the prefix the derivation arrives at is empty or
    shorter than 3 characters the query is [null], and only then; and on a
    [null] query [findImagesSimilarTo] settles to just the exact image,
    without asking the reader. *)
Theorem similar_query_prefix_rules (localeCompare : string -> string -> Z)
  (name : string) :
  ((length (segmentsOf name) < 4)%nat ->
   let base := hd "" (Js.split "_" name) in
   packageBaseOf name = (base, false)
   /\ buildQueryForSimilarImages name =
        if (String.length base <? 3)%nat then None else Some (base +:+ "*"))
  /\ (buildQueryForSimilarImages name = None
      <-> (String.length (packageBaseOf name).1 < 3)%nat)
  /\ (forall exactImage reader,
        imageName exactImage = name ->
        buildQueryForSimilarImages name = None ->
        findImagesSimilarTo localeCompare (Some exactImage) reader
          = ([], Fulfilled [exactImage])).
Proof.
  split; [|split].
  - intros Hfew base.
    assert (packageBaseOf name = (base, false)) as Hbase.
    { unfold packageBaseOf. fold (segmentsOf name).
      assert ((3 <? length (segmentsOf name))%nat = false) as ->
        by (apply Nat.ltb_ge; lia).
      reflexivity. }
    split; [exact Hbase|].
    rewrite buildQuery_by_base, Hbase. reflexivity.
  - rewrite buildQuery_by_base.
    destruct (String.length (packageBaseOf name).1 <? 3)%nat eqn:Hlen.
    + apply Nat.ltb_lt in Hlen. tauto.
    + apply Nat.ltb_ge in Hlen. split; [discriminate | lia].
  - intros exactImage reader Hname Hnull.
    unfold findImagesSimilarTo. rewrite Hname, Hnull. reflexivity.
Qed.

Lemma similar_query_prefix_rules_witness :
  buildQueryForSimilarImages "ab_2024-01-01" = None
  /\ findImagesSimilarTo codeUnitCompare (Some (image "ab_2024-01-01" ∅))
       (readerOf (Rejected "offline") (Rejected "offline"))
     = ([], Fulfilled [image "ab_2024-01-01" ∅]).
Proof.
  pose proof (similar_query_prefix_rules codeUnitCompare "ab_2024-01-01")
    as (Hfew & _ & Hfallback).
  assert (buildQueryForSimilarImages "ab_2024-01-01" = None) as Hnull.
  { destruct Hfew as [_ Hquery]; [vm_compute; lia | exact Hquery]. }
  split; [exact Hnull|].
  apply Hfallback; [reflexivity | exact Hnull].
Defined.

(** *** searchForImages *)

(** C9. A search string of fewer than 3 characters, the empty one included,
    settles to the empty list and sends nothing to the reader; in the
    component, the search started for it by the debounce timer leaves the
    log of requests as it was. *)
Theorem short_search_skips_reader (query : string) (reader : AwsImageReader) :
  (String.length query < 3)%nat ->
  searchForImages query reader = ([], Fulfilled [])
  /\ forall c,
       debouncing (streams c) = Some query ->
       readerLog (debounce_elapsed reader c) = readerLog c
       /\ (destroyed (streams c) || searchCaught (streams c) = false ->
           searchInFlight (streams (debounce_elapsed reader c))
             = Some (Fulfilled [])).
Proof.
  intros Hshort.
  assert (searchForImages query reader = ([], Fulfilled [])) as Hsearch.
  { unfold searchForImages.
    assert ((3 <=? String.length query)%nat = false) as ->
      by (apply Nat.leb_gt; exact Hshort).
    rewrite andb_false_r. reflexivity. }
  split; [exact Hsearch|].
  intros c Hheld. unfold debounce_elapsed.
  destruct (destroyed (streams c) || searchCaught (streams c));
    [split; [reflexivity | discriminate]|].
  rewrite Hheld, Hsearch. simpl. split; [apply app_nil_r | reflexivity].
Qed.

Lemma short_search_skips_reader_witness :
  searchForImages "am" (readerOf (Rejected "offline") (Rejected "offline"))
  = ([], Fulfilled []).
Proof.
  refine (proj1 (short_search_skips_reader "am" _ _)). vm_compute. lia.
Defined.

(** *** findImagesSimilarTo *)

Lemma no_other_is_all_same {A : Type} (same : A -> bool) (xs : list A) :
  negb (Js.isSome (List.find (fun x => negb (same x)) xs)) = forallb same xs.
Proof.
  induction xs as [|x rest IH]; [reflexivity|]. simpl.
  destruct (same x); simpl; [exact IH | reflexivity].
Qed.

(** What [findImagesSimilarTo] does with the answer of the reader: the exact
    image is added when no returned image has a name different from its
    own, that is when the answer is empty or made of namesakes only. *)
Lemma findImagesSimilarTo_appends_on_namesakes
  (localeCompare : string -> string -> Z) exactImage query reader similar :
  buildQueryForSimilarImages (imageName exactImage) = Some query ->
  findImages reader query = Fulfilled similar ->
  findImagesSimilarTo localeCompare (Some exactImage) reader =
    ([FindImagesCall query],
     Fulfilled
       (Js.sort (fun a b => localeCompare (imageName a) (imageName b))
          (if forallb
                (fun image =>
                   String.eqb (imageName image) (imageName exactImage))
                similar
           then (similar ++ [exactImage])%list else similar))).
Proof.
  intros Hquery Hfound. unfold findImagesSimilarTo. rewrite Hquery.
  unfold Q.and_then, Q.findImages, Q.when. rewrite Hfound. simpl.
  now rewrite no_other_is_all_same.
Qed.

(** C2 fails on the code. The reader answers the query [myapp-*] of the
    exact image [myapp-1.0-1234-x86_64] with one other image, so the exact
    image is absent from the answer; [findImagesSimilarTo] returns the
    answer as it is, without the exact image. *)
Theorem exact_image_left_out (localeCompare : string -> string -> Z) :
  let exactImage := image "myapp-1.0-1234-x86_64" {[ "us-east-1" := ["ami-0aaaaaaa"] ]} in
  let other := image "myapp-1.0-1233-x86_64" {[ "us-east-1" := ["ami-0bbbbbbb"] ]} in
  let reader := readerOf (Fulfilled [other]) (Fulfilled (Some exactImage)) in
  (exactImage ∉ [other])
  /\ findImagesSimilarTo localeCompare (Some exactImage) reader
     = ([FindImagesCall "myapp-*"], Fulfilled [other])
  /\ loadImagesFromImageId localeCompare "ami-0aaaaaaa" "us-east-1" "test" reader
     = ([GetImageCall "ami-0aaaaaaa" "us-east-1" "test";
         FindImagesCall "myapp-*"], Fulfilled [other]).
Proof.
  intros exactImage other reader. split; [|split].
  - intros Hin. apply list_elem_of_singleton in Hin. discriminate Hin.
  - reflexivity.
  - reflexivity.
Qed.

(** *** The identifier pattern *)

Lemma hex_run_all_hex (most : nat) (s : string) :
  forallb Js.lower_hex (list_ascii_of_string s) = true ->
  String.length (Js.hex_run most s) = Nat.min most (String.length s).
Proof.
  revert s. induction most as [|most IH]; intros s Hhex; [reflexivity|].
  destruct s as [|c rest]; [reflexivity|]. simpl in *.
  apply andb_true_iff in Hhex as [Hc Hrest]. rewrite Hc. simpl.
  now rewrite IH.
Qed.

(** A string made of [ami-] and 8 to 17 characters of [[0-9a-f]] matches
    the pattern of the component. *)
Lemma identifier_matches_pattern (digits : string) :
  (8 <= String.length digits <= 17)%nat ->
  forallb Js.lower_hex (list_ascii_of_string digits) = true ->
  Js.ami_pattern_exec ("ami-" +:+ digits) = Some ("ami-" +:+ digits).
Proof.
  intros Hlen Hhex.
  assert (Js.ami_pattern_here ("ami-" +:+ digits) = Some ("ami-" +:+ digits))
    as Hhere.
  { unfold Js.ami_pattern_here.
    change (Js.strip_prefix "ami-" ("ami-" +:+ digits)) with (Some digits).
    cbv beta iota zeta.
    pose proof (hex_run_all_hex 17 digits Hhex) as Hrun.
    assert ((8 <=? String.length (Js.hex_run 17 digits))%nat = true) as ->
      by (apply Nat.leb_le; lia).
    do 2 f_equal.
    assert (forall n s, forallb Js.lower_hex (list_ascii_of_string s) = true ->
              (String.length s <= n)%nat -> Js.hex_run n s = s) as Hwhole.
    { clear. induction n as [|n IH]; intros [|c rest] Hhex Hle;
        simpl in *; try reflexivity; try lia.
      apply andb_true_iff in Hhex as [-> Hrest]. f_equal.
      apply IH; [exact Hrest | lia]. }
    apply Hwhole; [exact Hhex | lia]. }
  change ("ami-" +:+ digits) with (String "a" ("mi-" +:+ digits)) in *.
  cbn [Js.ami_pattern_exec]. now rewrite Hhere.
Qed.

(** *** Handlers and what they leave alone *)

Section Handlers.

Variable localeCompare : string -> string -> Z.
Variable sameObject : IAmazonImage -> IAmazonImage -> bool.


Lemma selectImage_rest selected c :
  props (selectImage sameObject selected c) = props c
  /\ state (selectImage sameObject selected c) = state c
  /\ streams (selectImage sameObject selected c) = streams c
  /\ readerLog (selectImage sameObject selected c) = readerLog c.
Proof.
  unfold selectImage.
  destruct (strictEq sameObject (value (props c)) selected); simpl; auto.
Qed.





End Handlers.

(** *** The synthesized image *)








(** *** A change of region *)

Section RegionChange.

Variable sameObject : IAmazonImage -> IAmazonImage -> bool.

(** The steps of [componentDidUpdate] when the region is new to
    [region$]. *)
Lemma componentDidUpdate_new_region p c :
  destroyed (streams c) = false ->
  latestRegion (streams c) <> Some (region p) ->
  componentDidUpdate sameObject p c =
    region_switchMap sameObject (region p)
      (packageImagesInRegion_next sameObject
         (searchImagesInRegion_next
            (set_latestRegion (Some (region p)) (with_props p c)))).
Proof.
  intros Hlive Hnew. unfold componentDidUpdate. rewrite Hlive.
  simpl. destruct (decide _) as [Hsame|_]; [contradiction|reflexivity].
Qed.

Lemma searchImagesInRegion_next_frame c :
  let c' := searchImagesInRegion_next c in
  props c' = props c /\ streams c' = streams c
  /\ readerLog c' = readerLog c /\ onChangeLog c' = onChangeLog c
  /\ packageImages (state c') = packageImages (state c)
  /\ searchString (state c') = searchString (state c)
  /\ selectionMode (state c') = selectionMode (state c)
  /\ errorMessage (state c') = errorMessage (state c).
Proof.
  unfold searchImagesInRegion_next.
  destruct (latestSearchImages (streams c)), (latestRegion (streams c));
    simpl; auto 10.
Qed.


Lemma packageImagesInRegion_next_frame c :
  let c' := packageImagesInRegion_next sameObject c in
  props c' = props c /\ streams c' = streams c
  /\ readerLog c' = readerLog c
  /\ searchResults (state c') = searchResults (state c)
  /\ searchString (state c') = searchString (state c)
  /\ selectionMode (state c') = selectionMode (state c)
  /\ errorMessage (state c') = errorMessage (state c).
Proof.
  unfold packageImagesInRegion_next.
  destruct (latestPackageImages (streams c)), (latestRegion (streams c));
    simpl; auto 10.
  match goal with
  | |- context [selectImage sameObject ?v ?x] =>
      destruct (selectImage_rest sameObject v x) as (-> & -> & -> & ->)
  end.
  simpl. auto 10.
Qed.


Lemma region_switchMap_frame selected c :
  let c' := region_switchMap sameObject selected c in
  props c' = props c /\ state c' = state c /\ readerLog c' = readerLog c
  /\ latestRegion (streams c') = latestRegion (streams c)
  /\ latestPackageImages (streams c') = latestPackageImages (streams c)
  /\ latestSearchImages (streams c') = latestSearchImages (streams c)
  /\ destroyed (streams c') = destroyed (streams c).
Proof.
  unfold region_switchMap.
  destruct (selectionMode (state c)); simpl; auto 10.
  match goal with
  | |- context [selectImage sameObject ?v ?x] =>
      destruct (selectImage_rest sameObject v x) as (-> & -> & -> & ->)
  end.
  simpl. auto 10.
Qed.





End RegionChange.



(** *** Reconciling the selection *)

Section Reconcile.

Variable sameObject : IAmazonImage -> IAmazonImage -> bool.

(** The same object has the same contents. *)
Hypothesis sameObject_same : forall a b, sameObject a b = true -> a = b.







End Reconcile.



(** *** Failing fetches *)

Section Failures.

Variable localeCompare : string -> string -> Z.
Variable sameObject : IAmazonImage -> IAmazonImage -> bool.

(** [loadImagesFromImageId] never rejects: its own [catch] turns a
    rejection of [getImage] or of the search for similar images into the
    empty list. *)
Lemma loadImagesFromImageId_fulfilled imageId region credentials reader :
  exists images,
    (loadImagesFromImageId localeCompare imageId region credentials reader).2
      = Fulfilled images
    /\ (forall reason,
          getImage reader imageId region credentials = Rejected reason ->
          images = [])
    /\ (forall exact reason,
          getImage reader imageId region credentials = Fulfilled exact ->
          (findImagesSimilarTo localeCompare exact reader).2
            = Rejected reason ->
          images = []).
Proof.
  unfold loadImagesFromImageId, Q.catch, Q.and_then, Q.getImage, Q.when.
  destruct (getImage reader imageId region credentials) as [exact|reason].
  - destruct (findImagesSimilarTo localeCompare exact reader)
      as [sent [images|reason]] eqn:Hsimilar; simpl.
    + exists images. split; [reflexivity|].
      split; [discriminate|]. intros ? ? [= <-]. rewrite Hsimilar.
      discriminate.
    + exists []. auto.
  - simpl. exists []. auto.
Qed.

(** C4, as the code has it. No fetch failure leaves the component. The
    promise of a load by image id is always fulfilled, with the empty list
    when [getImage] or the search for similar images rejects, and a
    fulfilled package promise records no error message when it settles; a rejected package promise (the search
    by application name) is caught by [packageImages$], which records
    [Unable to load package images] and emits the empty list; a rejected
    search is caught by [searchImages$], which records [Unable to search
    for images] and emits the empty list. *)
Theorem fetch_failures_become_empty_lists (reader : AwsImageReader) :
  (forall p imageId,
     firstAmiIn (region p) (value p) = Some imageId ->
     exists images,
       packagePromise (streams (componentDidMount localeCompare reader p))
         = Fulfilled images
       /\ (forall reason,
             getImage reader imageId (region p) (credentials p)
               = Rejected reason ->
             images = [])
       /\ (forall exact reason,
             getImage reader imageId (region p) (credentials p)
               = Fulfilled exact ->
             (findImagesSimilarTo localeCompare exact reader).2
               = Rejected reason ->
             images = []))
  /\ (forall c images,
        destroyed (streams c) = false ->
        latestPackageImages (streams c) = None ->
        packagePromise (streams c) = Fulfilled images ->
        let c' := packageImages_settled sameObject c in
        errorMessage (state c') = errorMessage (state c)
        /\ latestPackageImages (streams c') = Some images)
  /\ (forall c reason,
        destroyed (streams c) = false ->
        latestPackageImages (streams c) = None ->
        packagePromise (streams c) = Rejected reason ->
        let c' := packageImages_settled sameObject c in
        errorMessage (state c') = Some "Unable to load package images"
        /\ latestPackageImages (streams c') = Some []
        /\ isLoadingPackageImages (state c') = false)
  /\ (forall c reason,
        destroyed (streams c) = false ->
        searchCaught (streams c) = false ->
        searchInFlight (streams c) = Some (Rejected reason) ->
        let c' := searchImages_settled c in
        errorMessage (state c') = Some "Unable to search for images"
        /\ latestSearchImages (streams c') = Some []
        /\ isSearching (state c') = false).
Proof.
  split; [|split; [|split]].
  - intros p imageId Hid.
    destruct (loadImagesFromImageId_fulfilled imageId (region p)
                (credentials p) reader) as (images & Hload & Hget & Hsimilar).
    exists images.
    unfold componentDidMount, fetchPackageImages. rewrite Hid.
    destruct (loadImagesFromImageId localeCompare imageId (region p)
                (credentials p) reader) as [sent settled].
    simpl in Hload. subst settled. simpl.
    split; [reflexivity|]. split; [exact Hget | exact Hsimilar].
  - intros c images Hlive Hnone Hfulfilled c'. subst c'.
    unfold packageImages_settled, packageImages_settle.
    rewrite Hlive, Hnone, Hfulfilled.
    destruct (packageImagesInRegion_next_frame sameObject
                (set_latestPackageImages (Some images)
                   (setState_isLoadingPackageImages false c)))
      as (_ & -> & _ & _ & _ & _ & ->).
    split; reflexivity.
  - intros c reason Hlive Hnone Hrejected c'. subst c'.
    unfold packageImages_settled, packageImages_settle.
    rewrite Hlive, Hnone, Hrejected.
    destruct (packageImagesInRegion_next_frame sameObject
                (set_latestPackageImages (Some [])
                   (setState_isLoadingPackageImages false
                      (setState_errorMessage
                         (Some "Unable to load package images") c))))
      as (_ & -> & _ & _ & _ & _ & ->).
    split; [reflexivity|]. split; [reflexivity|].
    unfold packageImagesInRegion_next. simpl.
    destruct (latestRegion (streams c)); [|reflexivity].
    match goal with
    | |- context [selectImage sameObject ?v ?x] =>
        destruct (selectImage_rest sameObject v x) as (_ & -> & _ & _)
    end.
    reflexivity.
  - intros c reason Hlive Hcaught Hflight c'. subst c'.
    unfold searchImages_settled. rewrite Hlive, Hcaught, Hflight. simpl.
    unfold searchImagesInRegion_next. simpl.
    destruct (latestRegion (streams c)); simpl; auto.
Qed.

End Failures.

Lemma fetch_failures_become_empty_lists_witness :
  let reader := readerOf (Rejected "offline") (Rejected "offline") in
  let c :=
    packageImages_settled sameContents
      (componentDidMount codeUnitCompare reader (propsOf Undefined "us-east-1")) in
  readerLog c = [FindImagesCall "my[_\-]app*"]
  /\ errorMessage (state c) = Some "Unable to load package images"
  /\ latestPackageImages (streams c) = Some [].
Proof.
  intros reader c. split; [reflexivity|].
  destruct (fetch_failures_become_empty_lists codeUnitCompare sameContents
              reader) as (_ & _ & Hpackages & _).
  destruct (Hpackages
              (componentDidMount codeUnitCompare reader
                 (propsOf Undefined "us-east-1"))
              "offline" eq_refl eq_refl eq_refl) as (Hmessage & Hempty & _).
  split; assumption.
Defined.

(** C4, as stated, fails for a load by image id: [getImage] rejects, the
    package list settles to the empty list, and no error message is
    recorded. *)
Lemma rejected_getImage_records_no_message :
  let selected := image "app-1" {[ "us-east-1" := ["ami-0a"] ]} in
  let reader := readerOf (Fulfilled []) (Rejected "not found") in
  let c :=
    run codeUnitCompare sameContents reader
      (propsOf (Obj selected) "us-east-1")
      [(reader, DidUpdate (propsOf (Obj selected) "us-east-1"));
       (reader, PackagesSettled)] in
  readerLog c = [GetImageCall "ami-0a" "us-east-1" "test"]
  /\ getImage reader "ami-0a" "us-east-1" "test" = Rejected "not found"
  /\ latestPackageImages (streams c) = Some []
  /\ errorMessage (state c) = None.
Proof. cbv zeta. repeat split. Qed.

(** *** What the owner is told *)

(** Opens a component into its fields. *)
Ltac open_component c :=
  let p := fresh "p" in
  let log := fresh "log" in
  let sent := fresh "sent" in
  destruct c as [p [? ? ? ? ? ? ?] [? ? ? ? ? ? ? ? ? ?] log sent].






Section Invariant.

Variable localeCompare : string -> string -> Z.
Variable sameObject : IAmazonImage -> IAmazonImage -> bool.


















End Invariant.

Section Telling.

Variable sameObject : IAmazonImage -> IAmazonImage -> bool.












End Telling.

Section Selection.

Variable localeCompare : string -> string -> Z.
Variable sameObject : IAmazonImage -> IAmazonImage -> bool.



End Selection.



(** *** The fetched package list *)

Section PackagePromise.

Variable localeCompare : string -> string -> Z.
Variable sameObject : IAmazonImage -> IAmazonImage -> bool.

(** No step replaces the promise of [fetchPackageImages], and the value of
    [packageImages$] changes only by becoming what the promise settled
    to. *)
Lemma step_keeps_package_promise reader e c :
  packagePromise (streams (step sameObject reader e c))
    = packagePromise (streams c)
  /\ (latestPackageImages (streams (step sameObject reader e c))
        = latestPackageImages (streams c)
      \/ latestPackageImages (streams (step sameObject reader e c))
           = Some (settledImages (packagePromise (streams c)))).
Proof.
  pose proof (fun v x => proj1 (proj2 (proj2 (selectImage_rest sameObject v x))))
    as Hstreams.
  destruct e; simpl;
    unfold componentDidUpdate, regionInner_region, region_switchMap,
      packageImages_settled, innerPackageImages_settled,
      packageImages_settle, searchInput_next, debounce_elapsed,
      searchImages_settled, option_picked, componentWillUnmount,
      packageImagesInRegion_next, searchImagesInRegion_next,
      regionInner_next;
    repeat (case_match; simpl; rewrite ?Hstreams; simpl);
    simplify_eq/=; auto.
Qed.

(** In every state the component reaches, the package list it holds is
    what the promise of [fetchPackageImages] settled to. *)
Lemma loaded_images_are_settled mountReader p events fetched :
  let c := run localeCompare sameObject mountReader p events in
  latestPackageImages (streams c) = Some fetched ->
  fetched = settledImages (packagePromise (streams c)).
Proof.
  unfold run.
  assert (forall l,
            latestPackageImages
              (streams (componentDidMount localeCompare mountReader p))
              = Some l ->
            l = settledImages
                  (packagePromise
                     (streams (componentDidMount localeCompare mountReader p))))
    as Hmount.
  { unfold componentDidMount. destruct (fetchPackageImages _ _ _ _ _ _).
    discriminate. }
  revert Hmount fetched.
  generalize (componentDidMount localeCompare mountReader p).
  induction events as [|[reader e] events IH]; intros c H fetched;
    [apply H|].
  simpl. apply IH. intros l.
  destruct (step_keeps_package_promise reader e c) as (-> & [-> | ->]).
  - apply H.
  - now intros [= <-].
Qed.

End PackagePromise.

(** ** Further properties of the code *)

(** *** Splitting and joining *)

Lemma append_cons (x : ascii) (a b : string) :
  String x a +:+ b = String x (a +:+ b).
Proof. reflexivity. Qed.

Lemma append_assoc (a b c : string) : (a +:+ b) +:+ c = a +:+ (b +:+ c).
Proof.
  induction a as [|x a IH]; [reflexivity|].
  now rewrite !append_cons, IH.
Qed.

Lemma append_empty_r (a : string) : a +:+ "" = a.
Proof.
  induction a as [|x a IH]; [reflexivity|]. now rewrite append_cons, IH.
Qed.

Lemma length_append (a b : string) :
  String.length (a +:+ b) = (String.length a + String.length b)%nat.
Proof.
  induction a as [|x a IH]; [reflexivity|].
  rewrite append_cons. simpl. now rewrite IH.
Qed.

(** Joining what [split] returns gives the string back. *)
Lemma join_split (sep : ascii) (s : string) :
  Js.join (String sep "") (Js.split sep s) = s.
Proof.
  unfold Js.join. induction s as [|c rest IH]; [reflexivity|].
  simpl. destruct (Ascii.eqb_spec c sep) as [->|Hne].
  - pose proof (split_nonempty sep rest) as Hsome.
    simpl. destruct (Js.split sep rest) as [|piece pieces]; [contradiction|].
    simpl in *. now rewrite IH.
  - pose proof (split_nonempty sep rest) as Hsome.
    destruct (Js.split sep rest) as [|piece pieces]; [contradiction|].
    simpl in *. destruct pieces as [|next pieces]; simpl in *;
      now rewrite <- IH.
Qed.

(** The first piece of a split starts the string. *)
Lemma first_piece_is_prefix (sep : ascii) (s : string) :
  exists rest, s = hd "" (Js.split sep s) +:+ rest.
Proof.
  induction s as [|c rest IH]; [now exists ""|].
  simpl. destruct (Ascii.eqb c sep); [now exists (String c rest)|].
  pose proof (split_nonempty sep rest) as Hsome.
  destruct (Js.split sep rest) as [|piece pieces]; [contradiction|].
  destruct IH as [tail Htail]. exists tail. simpl in *.
  now rewrite append_cons, <- Htail.
Qed.

Lemma join_app (sep : string) (xs ys : list string) :
  xs <> [] -> ys <> [] ->
  Js.join sep (xs ++ ys)%list = Js.join sep xs +:+ sep +:+ Js.join sep ys.
Proof.
  unfold Js.join. intros Hxs Hys.
  induction xs as [|x xs IH]; [contradiction|].
  destruct xs as [|x' xs].
  - simpl. destruct ys; [contradiction | reflexivity].
  - change ((x :: x' :: xs) ++ ys)%list with (x :: ((x' :: xs) ++ ys))%list.
    change (String.concat sep (x :: (x' :: xs) ++ ys))
      with (x +:+ sep +:+ String.concat sep ((x' :: xs) ++ ys)).
    rewrite IH by discriminate.
    change (String.concat sep (x :: x' :: xs))
      with (x +:+ sep +:+ String.concat sep (x' :: xs)).
    now rewrite !append_assoc.
Qed.

(** X1. The query that [buildQueryForSimilarImages] derives from an image
    name matches that name: it is a stem of at least 3 characters followed
    by the wildcard, and the name starts with the stem. *)
Theorem similar_query_matches_own_name (name query : string) :
  buildQueryForSimilarImages name = Some query ->
  exists stem rest,
    query = stem +:+ "*"
    /\ name = stem +:+ rest
    /\ (3 <= String.length stem)%nat.
Proof.
  rewrite buildQuery_by_base. unfold packageBaseOf.
  destruct (first_piece_is_prefix "_" name) as [tail Htail].
  set (base := hd "" (Js.split "_" name)) in *.
  destruct (3 <? length (Js.split "-" base))%nat eqn:Hlong; cbn [fst snd].
  - apply Nat.ltb_lt in Hlong.
    set (parts := Js.split "-" base) in *.
    set (kept := Js.join "-" (Js.slice_to_minus 3 parts)).
    destruct (String.length kept <? 3)%nat eqn:Hshort; [discriminate|].
    apply Nat.ltb_ge in Hshort. intros [= <-].
    assert (base = kept +:+ "-" +:+ Js.join "-" (drop (length parts - 3) parts))
      as Hbase.
    { rewrite <- (join_split "-" base). fold parts.
      rewrite <- (take_drop (length parts - 3) parts) at 1.
      apply join_app.
      - intros Hnil. apply (f_equal length) in Hnil.
        rewrite length_take in Hnil. simpl in Hnil. lia.
      - intros Hnil. apply (f_equal length) in Hnil.
        rewrite length_drop in Hnil. simpl in Hnil. lia. }
    exists (kept +:+ "-"),
      (Js.join "-" (drop (length parts - 3) parts) +:+ tail).
    split; [now rewrite append_assoc|]. split.
    + rewrite Htail, Hbase at 1. now rewrite !append_assoc.
    + rewrite length_append. lia.
  - destruct (String.length base <? 3)%nat eqn:Hshort; [discriminate|].
    apply Nat.ltb_ge in Hshort. intros [= <-].
    exists base, tail. auto.
Qed.

Lemma similar_query_matches_own_name_witness :
  exists stem rest,
    "spinnaker-deck-*" = stem +:+ "*"
    /\ "spinnaker-deck-2.1-77-trusty_x86" = stem +:+ rest
    /\ (3 <= String.length stem)%nat.
Proof.
  apply (similar_query_matches_own_name "spinnaker-deck-2.1-77-trusty_x86").
  reflexivity.
Defined.

(** *** The query for an application *)

Lemma replace_all_app (c : ascii) (by_ a b : string) :
  Js.replace_all c by_ (a +:+ b)
  = Js.replace_all c by_ a +:+ Js.replace_all c by_ b.
Proof.
  induction a as [|x a IH]; [reflexivity|].
  rewrite append_cons. simpl. destruct (Ascii.eqb x c).
  - now rewrite IH, append_assoc.
  - now rewrite IH, append_cons.
Qed.

Lemma replace_all_absent (c : ascii) (by_ a : string) :
  forallb (fun x => negb (Ascii.eqb x c)) (list_ascii_of_string a) = true ->
  Js.replace_all c by_ a = a.
Proof.
  induction a as [|x a IH]; [reflexivity|]. simpl.
  intros [Hx Ha]%andb_true_iff. apply negb_true_iff in Hx. rewrite Hx.
  now rewrite IH.
Qed.

(** X2. [loadImagesFromApplicationName] sends one request. Its query is
    the application name, each underscore of which has become the class
    [[_\-]], followed by the wildcard: a name without underscores is
    searched as it is, and the query of a name with an underscore is the
    part before it, the class, and the query of the part after it. How
    the request settles is how the promise settles; nothing is caught
    here. *)
Theorem application_query_replaces_underscores (before after : string)
  (reader : AwsImageReader) :
  (forallb (fun x => negb (Ascii.eqb x "_")) (list_ascii_of_string before)
     = true ->
   applicationNameQuery {| name := before |} = before +:+ "*"
   /\ applicationNameQuery {| name := before +:+ "_" +:+ after |}
      = before +:+ "[_\-]" +:+ applicationNameQuery {| name := after |})
  /\ loadImagesFromApplicationName {| name := before |} reader
     = ([FindImagesCall (applicationNameQuery {| name := before |})],
        findImages reader (applicationNameQuery {| name := before |})).
Proof.
  split; [|reflexivity].
  intros Hplain. unfold applicationNameQuery. simpl. split.
  - now rewrite replace_all_absent.
  - rewrite replace_all_app, (replace_all_absent _ _ before Hplain).
    change ("_" +:+ after) with (String "_" after).
    change (Js.replace_all "_" "[_\-]" (String "_" after))
      with ("[_\-]" +:+ Js.replace_all "_" "[_\-]" after).
    now rewrite !append_assoc.
Qed.

Lemma application_query_replaces_underscores_witness :
  applicationNameQuery {| name := "foo" +:+ "_" +:+ "bar" |}
  = "foo" +:+ "[_\-]" +:+ applicationNameQuery {| name := "bar" |}.
Proof.
  exact (proj2 (proj1 (application_query_replaces_underscores "foo" "bar"
                         (readerOf (Fulfilled []) (Fulfilled None)))
                  eq_refl)).
Defined.

(** *** What the identifier pattern accepts *)

Lemma strip_prefix_app p s rest :
  Js.strip_prefix p s = Some rest -> s = p +:+ rest.
Proof.
  revert s. induction p as [|a p IH]; intros s; simpl.
  - now intros [= ->].
  - destruct s as [|b s]; [discriminate|].
    destruct (Ascii.eqb_spec a b) as [->|]; [|discriminate].
    intros H. now rewrite append_cons, <- (IH _ H).
Qed.

Lemma hex_run_shape most s :
  (String.length (Js.hex_run most s) <= most)%nat
  /\ forallb Js.lower_hex (list_ascii_of_string (Js.hex_run most s)) = true
  /\ exists after, s = Js.hex_run most s +:+ after.
Proof.
  revert s. induction most as [|most IH]; intros s.
  - simpl. split; [lia|]. split; [reflexivity|]. now exists s.
  - destruct s as [|c rest]; simpl.
    + split; [lia|]. split; [reflexivity|]. now exists "".
    + destruct (Js.lower_hex c) eqn:Hc; simpl.
      * destruct (IH rest) as (Hlen & Hhex & after & Hafter).
        split; [lia|]. split; [now rewrite Hc, Hhex|].
        exists after. now rewrite append_cons, <- Hafter.
      * split; [lia|]. split; [reflexivity|]. now exists (String c rest).
Qed.

(** X3. What [/ami-[0-9a-f]{8,17}/.exec] returns for a search string is a
    part of that string made of [ami-] and 8 to 17 characters, each of
    them a digit or a lower-case letter from [a] to [f]; the string may go
    on before and after it. *)
Theorem ami_pattern_match_shape (searched matched : string) :
  Js.ami_pattern_exec searched = Some matched ->
  exists before digits after,
    searched = before +:+ matched +:+ after
    /\ matched = "ami-" +:+ digits
    /\ (8 <= String.length digits <= 17)%nat
    /\ forallb Js.lower_hex (list_ascii_of_string digits) = true.
Proof.
  induction searched as [|c rest IH].
  - discriminate.
  - cbn [Js.ami_pattern_exec].
    destruct (Js.ami_pattern_here (String c rest)) as [m|] eqn:Hhere.
    + intros [= <-]. unfold Js.ami_pattern_here in Hhere.
      destruct (Js.strip_prefix "ami-" (String c rest)) as [tail|] eqn:Htail;
        [|discriminate].
      apply strip_prefix_app in Htail.
      destruct (8 <=? String.length (Js.hex_run 17 tail))%nat eqn:Hlong;
        [|discriminate].
      apply Nat.leb_le in Hlong. injection Hhere as <-.
      destruct (hex_run_shape 17 tail) as (Hmost & Hhex & after & Hafter).
      exists "", (Js.hex_run 17 tail), after.
      split; [|split; [reflexivity | split; [lia | exact Hhex]]].
      rewrite Htail, Hafter at 1.
      change ("" +:+ ?x) with x. now rewrite !append_assoc.
    + intros Hrest.
      destruct (IH Hrest) as (before & digits & after & -> & Hm & Hlen & Hhex).
      exists (String c before), digits, after.
      split; [now rewrite append_cons|]. auto.
Qed.

Lemma ami_pattern_match_shape_witness :
  exists before digits after,
    "see ami-0123456789abcdef0123 (new)" = before +:+ "ami-0123456789abcdef0" +:+ after
    /\ "ami-0123456789abcdef0" = "ami-" +:+ digits
    /\ (8 <= String.length digits <= 17)%nat
    /\ forallb Js.lower_hex (list_ascii_of_string digits) = true.
Proof.
  apply (ami_pattern_match_shape "see ami-0123456789abcdef0123 (new)").
  reflexivity.
Defined.

(** *** Sorting the similar images *)

Lemma sort_insert_perm {A : Type} (compare : A -> A -> Z) (x : A) (xs : list A) :
  Js.sort_insert compare x xs ≡ₚ x :: xs.
Proof.
  induction xs as [|y rest IH]; [reflexivity|]. simpl.
  destruct (compare x y <=? 0)%Z; [reflexivity|].
  rewrite IH. apply Permutation_swap.
Qed.

Lemma sort_perm {A : Type} (compare : A -> A -> Z) (xs : list A) :
  Js.sort compare xs ≡ₚ xs.
Proof.
  unfold Js.sort. induction xs as [|x rest IH]; [reflexivity|]. simpl.
  now rewrite sort_insert_perm, IH.
Qed.

Lemma sort_insert_sorted {A : Type} (compare : A -> A -> Z) (x : A)
  (xs : list A) :
  (forall a b, (compare a b <= 0)%Z \/ (compare b a <= 0)%Z) ->
  Sorted (fun a b => (compare a b <= 0)%Z) xs ->
  Sorted (fun a b => (compare a b <= 0)%Z) (Js.sort_insert compare x xs).
Proof.
  intros Htotal. induction xs as [|y rest IH]; intros Hsorted; simpl.
  - repeat constructor.
  - destruct (compare x y <=? 0)%Z eqn:Hxy.
    + apply Z.leb_le in Hxy.
      constructor; [exact Hsorted | constructor; exact Hxy].
    + apply Z.leb_gt in Hxy.
      apply Sorted_inv in Hsorted as [Hrest Hhead].
      constructor; [now apply IH|].
      destruct rest as [|z rest]; simpl.
      * constructor. destruct (Htotal x y); [lia | assumption].
      * destruct (compare x z <=? 0)%Z; constructor.
        -- destruct (Htotal x y); [lia | assumption].
        -- now apply HdRel_inv in Hhead.
Qed.

Lemma sort_sorted {A : Type} (compare : A -> A -> Z) (xs : list A) :
  (forall a b, (compare a b <= 0)%Z \/ (compare b a <= 0)%Z) ->
  Sorted (fun a b => (compare a b <= 0)%Z) (Js.sort compare xs).
Proof.
  intros Htotal. unfold Js.sort.
  induction xs as [|x rest IH]; [constructor|]. simpl.
  now apply sort_insert_sorted.
Qed.

(** X4. When the search for similar images is answered, what
    [findImagesSimilarTo] settles to is the answer rearranged, with or
    without the exact image at its end before sorting: every image of the
    answer is in it, none twice more than in the answer. Where
    [localeCompare] orders any two names one way or the other, the result
    is in the order of the names. *)
Theorem similar_images_are_the_answer_sorted
  (localeCompare : string -> string -> Z) (exactImage : IAmazonImage)
  (query : string) (reader : AwsImageReader) (similar : list IAmazonImage) :
  buildQueryForSimilarImages (imageName exactImage) = Some query ->
  findImages reader query = Fulfilled similar ->
  exists result,
    findImagesSimilarTo localeCompare (Some exactImage) reader
      = ([FindImagesCall query], Fulfilled result)
    /\ (result ≡ₚ similar \/ result ≡ₚ (similar ++ [exactImage])%list)
    /\ (forall image, image ∈ similar -> image ∈ result)
    /\ ((forall a b,
           (localeCompare a b <= 0)%Z \/ (localeCompare b a <= 0)%Z) ->
        Sorted
          (fun a b => (localeCompare (imageName a) (imageName b) <= 0)%Z)
          result).
Proof.
  intros Hquery Hfound.
  rewrite (findImagesSimilarTo_appends_on_namesakes localeCompare exactImage
             query reader similar Hquery Hfound).
  set (compare := fun a b => localeCompare (imageName a) (imageName b)).
  eexists. split; [reflexivity|].
  split; [|split].
  - destruct (forallb _ similar); [right | left]; apply sort_perm.
  - intros image Hin. rewrite sort_perm.
    destruct (forallb _ similar); [|exact Hin].
    apply elem_of_app. now left.
  - intros Htotal. apply (sort_sorted compare). intros a b. apply Htotal.
Qed.

Lemma similar_images_are_the_answer_sorted_witness :
  let exactImage := image "myapp-1.0-1234-x86_64" ∅ in
  let older := image "myapp-1.0-1200-x86_64" ∅ in
  let newer := image "myapp-1.0-1300-x86_64" ∅ in
  exists result,
    findImagesSimilarTo codeUnitCompare (Some exactImage)
      (readerOf (Fulfilled [newer; older]) (Rejected "offline"))
    = ([FindImagesCall "myapp-*"], Fulfilled result)
    /\ (forall img, img ∈ [newer; older] -> img ∈ result).
Proof.
  intros exactImage older newer.
  destruct (similar_images_are_the_answer_sorted codeUnitCompare exactImage
              "myapp-*"
              (readerOf (Fulfilled [newer; older]) (Rejected "offline"))
              [newer; older] eq_refl eq_refl)
    as (result & Hsettled & _ & Hall & _).
  exists result. split; assumption.
Defined.

(** *** Requests of the loaders *)

Lemma findImagesSimilarTo_sends_at_most_one
  (localeCompare : string -> string -> Z) exactImage reader :
  (length (findImagesSimilarTo localeCompare exactImage reader).1 <= 1)%nat.
Proof.
  destruct exactImage as [exactImage|]; [|simpl; lia].
  unfold findImagesSimilarTo.
  destruct (buildQueryForSimilarImages (imageName exactImage)) as [query|];
    [|simpl; lia].
  unfold Q.and_then, Q.findImages. simpl.
  destruct (findImages reader query); simpl; lia.
Qed.

Lemma loadImagesFromImageId_sends
  (localeCompare : string -> string -> Z) imageId region credentials reader :
  exists more,
    (loadImagesFromImageId localeCompare imageId region credentials reader).1
      = GetImageCall imageId region credentials :: more
    /\ (length more <= 1)%nat.
Proof.
  unfold loadImagesFromImageId, Q.catch, Q.and_then, Q.getImage, Q.when.
  destruct (getImage reader imageId region credentials) as [got|reason].
  - pose proof (findImagesSimilarTo_sends_at_most_one localeCompare got reader)
      as Hone.
    destruct (findImagesSimilarTo localeCompare got reader)
      as [sent [images|reason]]; simpl in *.
    + exists sent. auto.
    + exists (sent ++ [])%list. rewrite app_nil_r. auto.
  - exists []. simpl. split; [reflexivity | lia].
Qed.

(** X5. [findImagesSimilarTo] sends at most one request. For [null] it
    settles to the empty list without any; and when its search is
    rejected, so is its promise: the rejection is not caught here. *)
Theorem findImagesSimilarTo_requests
  (localeCompare : string -> string -> Z) (reader : AwsImageReader) :
  findImagesSimilarTo localeCompare None reader = ([], Fulfilled [])
  /\ (forall exactImage,
        (length (findImagesSimilarTo localeCompare exactImage reader).1
           <= 1)%nat)
  /\ (forall exactImage query reason,
        buildQueryForSimilarImages (imageName exactImage) = Some query ->
        findImages reader query = Rejected reason ->
        findImagesSimilarTo localeCompare (Some exactImage) reader
          = ([FindImagesCall query], Rejected reason)).
Proof.
  split; [reflexivity|]. split.
  - intros exactImage. apply findImagesSimilarTo_sends_at_most_one.
  - intros exactImage query reason Hquery Hrejected.
    unfold findImagesSimilarTo. rewrite Hquery.
    unfold Q.and_then, Q.findImages. now rewrite Hrejected.
Qed.

(** X6. [loadImagesFromImageId] asks [getImage] first, for the identifier,
    region and credentials it was given, and sends at most one request
    more. When [getImage] settles to [null] or is rejected, nothing more
    is sent and the promise settles to the empty list. *)
Theorem loadImagesFromImageId_requests
  (localeCompare : string -> string -> Z)
  (imageId region credentials : string) (reader : AwsImageReader) :
  exists more,
    (loadImagesFromImageId localeCompare imageId region credentials reader).1
      = GetImageCall imageId region credentials :: more
    /\ (length more <= 1)%nat
    /\ (getImage reader imageId region credentials = Fulfilled None
        \/ (exists reason,
              getImage reader imageId region credentials = Rejected reason) ->
        loadImagesFromImageId localeCompare imageId region credentials reader
          = ([GetImageCall imageId region credentials], Fulfilled [])).
Proof.
  destruct (loadImagesFromImageId_sends localeCompare imageId region
              credentials reader) as (more & Hsent & Hone).
  exists more. split; [exact Hsent|]. split; [exact Hone|].
  unfold loadImagesFromImageId, Q.catch, Q.and_then, Q.getImage, Q.when.
  intros [-> | [reason ->]]; reflexivity.
Qed.

Lemma searchForImages_asks_from_three_characters_aux (query : string)
  (reader : AwsImageReader) :
  ((searchForImages query reader).1 = [] <-> (String.length query < 3)%nat)
  /\ ((3 <= String.length query)%nat ->
      searchForImages query reader
        = ([FindImagesCall query], findImages reader query)).
Proof.
  unfold searchForImages.
  destruct (3 <=? String.length query)%nat eqn:Hlong.
  - apply Nat.leb_le in Hlong.
    assert (Js.truthy query = true) as ->
      by (destruct query; [simpl in Hlong; lia | reflexivity]).
    simpl. split; [|reflexivity]. split; [discriminate | lia].
  - apply Nat.leb_gt in Hlong. rewrite andb_false_r. simpl.
    split; [tauto | lia].
Qed.

(** X7. [searchForImages] asks the reader exactly when the query has 3
    characters or more: then it sends the query as it is, once, and
    settles as the reader does, rejection included. *)
Theorem searchForImages_asks_from_three_characters (query : string)
  (reader : AwsImageReader) :
  ((searchForImages query reader).1 = [] <-> (String.length query < 3)%nat)
  /\ ((3 <= String.length query)%nat ->
      searchForImages query reader
        = ([FindImagesCall query], findImages reader query)).
Proof. apply searchForImages_asks_from_three_characters_aux. Qed.

(** X8. [fetchPackageImages] always asks the reader, once or twice. If
    the value has a non-empty first identifier for the region, the first
    request is [getImage] for that identifier, the region and the
    credentials; if not (no value, no entry for the region, an empty entry
    or an empty identifier), the only request is the search by application
    name. *)
Theorem fetchPackageImages_requests (localeCompare : string -> string -> Z)
  (value : ImageValue) (region credentials : string)
  (application : Application) (reader : AwsImageReader) :
  let sent :=
    (fetchPackageImages localeCompare value region credentials application
       reader).1 in
  (1 <= length sent <= 2)%nat
  /\ match firstAmiIn region value with
     | Some imageId =>
         exists more, sent = GetImageCall imageId region credentials :: more
     | None => sent = [FindImagesCall (applicationNameQuery application)]
     end.
Proof.
  unfold fetchPackageImages.
  destruct (firstAmiIn region value) as [imageId|].
  - destruct (loadImagesFromImageId_sends localeCompare imageId region
                credentials reader) as (more & Hsent & Hone).
    cbv zeta. rewrite Hsent. simpl. split; [lia | eauto].
  - simpl. split; [lia | reflexivity].
Qed.

(** *** Reasoning over every run *)

Section Runs.

Variable localeCompare : string -> string -> Z.
Variable sameObject : IAmazonImage -> IAmazonImage -> bool.

Lemma run_app mountReader p events more :
  run localeCompare sameObject mountReader p (events ++ more)%list
  = foldl (fun c '(reader, e) => step sameObject reader e c)
      (run localeCompare sameObject mountReader p events) more.
Proof. unfold run. apply foldl_app. Qed.

(** What holds after [componentDidMount] and is kept by every step holds
    after every run. *)
Lemma run_invariant (P : Component -> Prop) :
  (forall reader p, P (componentDidMount localeCompare reader p)) ->
  (forall reader e c, P c -> P (step sameObject reader e c)) ->
  forall mountReader p events,
    P (run localeCompare sameObject mountReader p events).
Proof.
  intros Hmount Hstep mountReader p events. unfold run.
  generalize (Hmount mountReader p).
  generalize (componentDidMount localeCompare mountReader p).
  induction events as [|[reader e] events IH]; intros c Hc; [exact Hc|].
  simpl. apply IH. now apply Hstep.
Qed.

(** What every step keeps is kept by every sequence of steps. *)
Lemma steps_invariant (P : Component -> Prop) :
  (forall reader e c, P c -> P (step sameObject reader e c)) ->
  forall events c,
    P c ->
    P (foldl (fun c '(reader, e) => step sameObject reader e c) c events).
Proof.
  intros Hstep events.
  induction events as [|[reader e] events IH]; intros c Hc; [exact Hc|].
  simpl. apply IH. now apply Hstep.
Qed.

Lemma componentDidMount_fields reader p :
  let c := componentDidMount localeCompare reader p in
  props c = p
  /\ state c =
       {| errorMessage := None; selectionMode := packageImagesMode;
          searchString := ""; searchResults := None; isSearching := false;
          packageImages := None; isLoadingPackageImages := true |}
  /\ latestRegion (streams c) = None
  /\ latestPackageImages (streams c) = None
  /\ latestSearchImages (streams c) = None
  /\ searchInFlight (streams c) = None
  /\ regionInner (streams c) = None
  /\ searchCaught (streams c) = false
  /\ destroyed (streams c) = false
  /\ onChangeLog c = [].
Proof.
  unfold componentDidMount.
  destruct (fetchPackageImages _ _ _ _ _ _). simpl. auto 12.
Qed.

End Runs.

(** Opens a step into the cases of its handlers; [selectImage] is left
    folded, with what it keeps as rewriting rules. *)
Ltac step_cases sameObject e :=
  pose proof (fun v x => proj1 (selectImage_rest sameObject v x))
    as Hsel_props;
  pose proof (fun v x => proj1 (proj2 (selectImage_rest sameObject v x)))
    as Hsel_state;
  pose proof (fun v x =>
                proj1 (proj2 (proj2 (selectImage_rest sameObject v x))))
    as Hsel_streams;
  pose proof (fun v x =>
                proj2 (proj2 (proj2 (selectImage_rest sameObject v x))))
    as Hsel_sent;
  destruct e; simpl;
  unfold componentDidUpdate, regionInner_region, region_switchMap,
    packageImages_settled, innerPackageImages_settled,
    packageImages_settle, searchInput_next, debounce_elapsed,
    searchImages_settled, option_picked, componentWillUnmount,
    packageImagesInRegion_next, searchImagesInRegion_next,
    regionInner_next, onChange;
  repeat (case_match; simpl;
          rewrite ?Hsel_props, ?Hsel_state, ?Hsel_streams, ?Hsel_sent;
          simpl);
  simplify_eq/=.

(** Closes a case by rewriting with the equations the case brought. *)
Ltac step_close :=
  simpl in *;
  repeat match goal with
         | H : ?x = _ |- context [?x] => rewrite H
         end;
  simpl; eauto; try congruence.

(** *** After the component is unmounted *)

Section Unmounted.

Variable localeCompare : string -> string -> Z.
Variable sameObject : IAmazonImage -> IAmazonImage -> bool.



End Unmounted.

(** *** What the state says about the streams *)

Section StateOfRuns.

Variable localeCompare : string -> string -> Z.
Variable sameObject : IAmazonImage -> IAmazonImage -> bool.

Lemma step_keeps_search_mode reader e c :
  selectionMode (state c) = searchAllImagesMode ->
  selectionMode (state (step sameObject reader e c)) = searchAllImagesMode.
Proof. intros Hmode. step_cases sameObject e; auto; congruence. Qed.

Lemma step_changes_mode_on_click reader e c :
  e <> SearchAllImagesClicked ->
  selectionMode (state (step sameObject reader e c))
  = selectionMode (state c).
Proof. intros Hother. step_cases sameObject e; auto; congruence. Qed.

(** X10. The component starts in package mode and stays in it as long as
    [Search All Images] is not clicked; once it is in search mode, nothing
    that happens takes it back. *)
Theorem search_mode_is_never_left (mountReader : AwsImageReader)
  (p : IAmazonImageSelectorProps)
  (events later : list (AwsImageReader * Event)) :
  (Forall (fun happening => happening.2 <> SearchAllImagesClicked) events ->
   selectionMode (state (run localeCompare sameObject mountReader p events))
   = packageImagesMode)
  /\ (selectionMode
        (state (run localeCompare sameObject mountReader p events))
      = searchAllImagesMode ->
      selectionMode
        (state (run localeCompare sameObject mountReader p
                  (events ++ later)%list))
      = searchAllImagesMode).
Proof.
  split.
  - unfold run.
    assert (selectionMode
              (state (componentDidMount localeCompare mountReader p))
            = packageImagesMode) as Hmount
      by (destruct (componentDidMount_fields localeCompare mountReader p)
            as (_ & -> & _); reflexivity).
    revert Hmount.
    generalize (componentDidMount localeCompare mountReader p).
    induction events as [|[reader e] events IH]; intros c Hc Hnone;
      [exact Hc|].
    simpl. apply Forall_cons in Hnone as [He Hnone].
    apply IH; [|exact Hnone].
    rewrite step_changes_mode_on_click; [exact Hc | exact He].
  - intros Hmode. rewrite run_app.
    apply (steps_invariant sameObject
             (fun c => selectionMode (state c) = searchAllImagesMode));
      [|exact Hmode].
    intros reader e c. apply step_keeps_search_mode.
Qed.


End StateOfRuns.

Lemma search_mode_is_never_left_witness :
  let reader := readerOf (Fulfilled []) (Rejected "offline") in
  selectionMode
    (state (run codeUnitCompare sameContents reader
              (propsOf Undefined "us-east-1")
              ([(reader, SearchAllImagesClicked)]
                 ++ [(reader, DidUpdate (propsOf Undefined "us-west-2"));
                     (reader, PackagesSettled)])%list))
  = searchAllImagesMode.
Proof.
  intros reader.
  exact (proj2 (search_mode_is_never_left codeUnitCompare sameContents
                  reader (propsOf Undefined "us-east-1")
                  [(reader, SearchAllImagesClicked)]
                  [(reader, DidUpdate (propsOf Undefined "us-west-2"));
                   (reader, PackagesSettled)])
           eq_refl).
Defined.


Section Flags.

Variable localeCompare : string -> string -> Z.
Variable sameObject : IAmazonImage -> IAmazonImage -> bool.

(** X12. After every run, the spinner of the search is on exactly while a
    search is in flight: [isSearching] is set when the debounced string is
    handed to [searchForImages] and cleared when that promise settles or is
    replaced by the empty list. *)
Theorem isSearching_while_search_in_flight (mountReader : AwsImageReader)
  (p : IAmazonImageSelectorProps) (events : list (AwsImageReader * Event)) :
  let c := run localeCompare sameObject mountReader p events in
  isSearching (state c) = Js.isSome (searchInFlight (streams c)).
Proof.
  apply (run_invariant localeCompare sameObject
           (fun c => isSearching (state c)
                     = Js.isSome (searchInFlight (streams c)))).
  - intros reader p'.
    destruct (componentDidMount_fields localeCompare reader p')
      as (_ & -> & _ & _ & _ & -> & _). reflexivity.
  - intros reader e c H. step_cases sameObject e; step_close.
Qed.

(** X13. After every run, [isLoadingPackageImages] is on exactly until the
    promise of [fetchPackageImages] has reached [packageImages$], fulfilled
    or rejected; a component unmounted before that keeps it on. *)
Theorem isLoading_until_package_promise_settles
  (mountReader : AwsImageReader) (p : IAmazonImageSelectorProps)
  (events : list (AwsImageReader * Event)) :
  let c := run localeCompare sameObject mountReader p events in
  isLoadingPackageImages (state c)
  = negb (Js.isSome (latestPackageImages (streams c))).
Proof.
  apply (run_invariant localeCompare sameObject
           (fun c => isLoadingPackageImages (state c)
                     = negb (Js.isSome (latestPackageImages (streams c))))).
  - intros reader p'.
    destruct (componentDidMount_fields localeCompare reader p')
      as (_ & -> & _ & -> & _). reflexivity.
  - intros reader e c H. step_cases sameObject e; step_close.
Qed.

Lemma step_keeps_error_message reader e c message :
  errorMessage (state c) = Some message ->
  is_Some (errorMessage (state (step sameObject reader e c))).
Proof. intros H. step_cases sameObject e; step_close. Qed.

Lemma step_error_messages reader e c :
  errorMessage (state (step sameObject reader e c)) = errorMessage (state c)
  \/ errorMessage (state (step sameObject reader e c))
     = Some "Unable to load package images"
  \/ errorMessage (state (step sameObject reader e c))
     = Some "Unable to search for images".
Proof. step_cases sameObject e; step_close. Qed.

(** X14. The error message is never cleared: after every run it is absent
    or one of the two messages of the component, and once it is there it
    is there after whatever happens next, a later search that succeeds
    included. *)
Theorem error_message_is_never_cleared (mountReader : AwsImageReader)
  (p : IAmazonImageSelectorProps)
  (events later : list (AwsImageReader * Event)) :
  let c := run localeCompare sameObject mountReader p events in
  (errorMessage (state c) = None
   \/ errorMessage (state c) = Some "Unable to load package images"
   \/ errorMessage (state c) = Some "Unable to search for images")
  /\ (is_Some (errorMessage (state c)) ->
      is_Some
        (errorMessage
           (state (run localeCompare sameObject mountReader p
                     (events ++ later)%list)))).
Proof.
  split.
  - apply (run_invariant localeCompare sameObject
             (fun c =>
                errorMessage (state c) = None
                \/ errorMessage (state c)
                   = Some "Unable to load package images"
                \/ errorMessage (state c)
                   = Some "Unable to search for images")).
    + intros reader p'.
      destruct (componentDidMount_fields localeCompare reader p')
        as (_ & -> & _). auto.
    + intros reader e c H.
      destruct (step_error_messages reader e c) as [-> | [-> | ->]]; auto.
  - intros Hthere. rewrite run_app.
    apply (steps_invariant sameObject
             (fun c => is_Some (errorMessage (state c))));
      [|exact Hthere].
    intros reader e c [message Hmessage].
    now apply (step_keeps_error_message reader e c message).
Qed.

End Flags.

(** *** The search stream *)

Section SearchStream.

Variable localeCompare : string -> string -> Z.
Variable sameObject : IAmazonImage -> IAmazonImage -> bool.



(** X16. The latest search wins. When the debounce timer fires for a
    string and the promise of that search is fulfilled, the images it was
    fulfilled with become the fetched search list, whatever search was in
    flight before: the promise of the earlier search is never heard. *)
Theorem latest_search_supersedes_the_one_in_flight (reader : AwsImageReader)
  (c : Component) (typed : string) (found : list IAmazonImage) :
  destroyed (streams c) = false ->
  searchCaught (streams c) = false ->
  debouncing (streams c) = Some typed ->
  (searchForImages typed reader).2 = Fulfilled found ->
  let searching := debounce_elapsed reader c in
  searchInFlight (streams searching) = Some (Fulfilled found)
  /\ latestSearchImages (streams (searchImages_settled searching))
     = Some found
  /\ searchInFlight (streams (searchImages_settled searching)) = None.
Proof.
  intros Hlive Hcaught Hheld Hfound searching. subst searching.
  unfold debounce_elapsed. rewrite Hlive, Hcaught, Hheld. simpl.
  destruct (searchForImages typed reader) as [sent settled].
  simpl in Hfound. subst settled. simpl.
  split; [reflexivity|].
  unfold searchImages_settled. simpl. rewrite Hlive, Hcaught. simpl.
  destruct (searchImagesInRegion_next_frame
              (set_latestSearchImages (Some found)
                 (setState_isSearching false
                    (set_searchInFlight None
                       {| props := props c;
                          state :=
                            state (setState_isSearching true
                                     (set_debouncing None c));
                          streams :=
                            streams (set_searchInFlight
                                       (Some (Fulfilled found))
                                       (setState_isSearching true
                                          (set_debouncing None c)));
                          onChangeLog := onChangeLog c;
                          readerLog := (readerLog c ++ sent)%list |}))))
    as (_ & Hstreams & _).
  simpl in Hstreams. rewrite Hlive, Hcaught in Hstreams.
  rewrite Hstreams. split; reflexivity.
Qed.

(** X17. Typing again the string that was typed last starts no search:
    the state takes the string, but [distinctUntilChanged] lets nothing
    through, so when the timer fires next nothing is sent and the search
    in flight, if any, stays the one listened to. *)
Theorem repeated_input_starts_no_search (reader : AwsImageReader)
  (c : Component) (typed : string) :
  lastSearchInput (streams c) = Some typed ->
  debouncing (streams c) = None ->
  let c' := debounce_elapsed reader (searchInput_next typed c) in
  readerLog c' = readerLog c
  /\ searchInFlight (streams c') = searchInFlight (streams c)
  /\ isSearching (state c') = isSearching (state c)
  /\ (destroyed (streams c) || searchCaught (streams c) = false ->
      searchString (state c') = typed).
Proof.
  intros Hlast Hnone c'. subst c'.
  unfold searchInput_next.
  destruct (destroyed (streams c) || searchCaught (streams c)) eqn:Hoff.
  - unfold debounce_elapsed. rewrite Hoff.
    repeat split; try reflexivity. discriminate.
  - simpl. rewrite Hlast. destruct (decide _) as [_|Hne]; [|contradiction].
    unfold debounce_elapsed. simpl. rewrite Hoff, Hnone. simpl. auto.
Qed.

End SearchStream.


Lemma latest_search_supersedes_the_one_in_flight_witness :
  let found := [image "apple-1" {[ "us-east-1" := ["ami-0a"] ]}] in
  let reader := readerOf (Fulfilled found) (Rejected "offline") in
  let c :=
    run codeUnitCompare sameContents reader (propsOf Undefined "us-east-1")
      [(readerOf (Rejected "slow") (Rejected "offline"), InputChange "app");
       (readerOf (Rejected "slow") (Rejected "offline"), DebounceElapsed);
       (reader, InputChange "apple")] in
  searchInFlight (streams c) = Some (Rejected "slow")
  /\ latestSearchImages
       (streams (searchImages_settled (debounce_elapsed reader c)))
     = Some found.
Proof.
  intros found reader c. split; [reflexivity|].
  exact (proj1 (proj2 (latest_search_supersedes_the_one_in_flight reader c
                         "apple" found eq_refl eq_refl eq_refl eq_refl))).
Defined.

Lemma repeated_input_starts_no_search_witness :
  let reader := readerOf (Fulfilled []) (Rejected "offline") in
  let c :=
    run codeUnitCompare sameContents reader (propsOf Undefined "us-east-1")
      [(reader, InputChange "app"); (reader, DebounceElapsed)] in
  readerLog (debounce_elapsed reader (searchInput_next "app" c))
  = readerLog c.
Proof.
  intros reader c.
  exact (proj1 (repeated_input_starts_no_search reader c "app"
                  eq_refl eq_refl)).
Defined.

(** *** The lists the state holds *)

Section Lists.

Variable localeCompare : string -> string -> Z.
Variable sameObject : IAmazonImage -> IAmazonImage -> bool.




Lemma step_before_first_update reader e c :
  (latestRegion (streams c) = None ->
   onChangeLog c = [] /\ packageImages (state c) = None
   /\ searchResults (state c) = None /\ regionInner (streams c) = None) ->
  latestRegion (streams (step sameObject reader e c)) = None ->
  onChangeLog (step sameObject reader e c) = []
  /\ packageImages (state (step sameObject reader e c)) = None
  /\ searchResults (state (step sameObject reader e c)) = None
  /\ regionInner (streams (step sameObject reader e c)) = None.
Proof.
  intros H.
  assert (latestRegion (streams (step sameObject reader e c)) = None ->
          latestRegion (streams c) = None) as Hback.
  { step_cases sameObject e; step_close. }
  intros Hnone. pose proof (Hback Hnone) as Hregion.
  destruct (H Hregion) as (Hlog & Hpk & Hsr & Hinner).
  clear H Hback. revert Hnone.
  destruct e as [p| | | | | | | |].
  - (* a live component would have seen the region *)
    simpl. destruct (destroyed (streams c)) eqn:Hlive.
    + unfold componentDidUpdate. rewrite Hlive. auto.
    + rewrite (componentDidUpdate_new_region sameObject p c Hlive)
        by congruence.
      intros Hnone. exfalso.
      destruct (region_switchMap_frame sameObject (region p)
                  (packageImagesInRegion_next sameObject
                     (searchImagesInRegion_next
                        (set_latestRegion (Some (region p))
                           (with_props p c)))))
        as (_ & _ & _ & Hr & _).
      rewrite Hr in Hnone.
      destruct (packageImagesInRegion_next_frame sameObject
                  (searchImagesInRegion_next
                     (set_latestRegion (Some (region p)) (with_props p c))))
        as (_ & Hs & _).
      rewrite Hs in Hnone.
      destruct (searchImagesInRegion_next_frame
                  (set_latestRegion (Some (region p)) (with_props p c)))
        as (_ & Hs' & _).
      rewrite Hs' in Hnone. discriminate Hnone.
  - simpl. unfold packageImages_settled, packageImages_settle,
      packageImagesInRegion_next.
    repeat (case_match; simpl); simplify_eq/=; auto; congruence.
  - simpl. unfold innerPackageImages_settled. rewrite Hinner.
    case_match; auto.
  - simpl. unfold searchInput_next.
    repeat (case_match; simpl); auto.
  - simpl. unfold debounce_elapsed.
    repeat (case_match; simpl); auto.
  - simpl. unfold searchImages_settled, searchImagesInRegion_next.
    repeat (case_match; simpl); simplify_eq/=; auto; congruence.
  - simpl. case_match; auto.
  - simpl. unfold option_picked, renderedOptions. rewrite Hpk, Hsr.
    repeat (case_match; simpl); simplify_eq/=; auto;
      match goal with
      | Hl : [] !! _ = Some _ |- _ => now rewrite lookup_nil in Hl
      end.
  - simpl. auto.
Qed.

(** X19. Before [componentDidUpdate] has run for the first time,
    [region$] has emitted nothing, and so, whatever promise settles and
    whatever is typed, the owner has been told nothing and the state holds
    no package images and no search results. *)
Theorem nothing_is_told_before_the_first_update
  (mountReader : AwsImageReader) (p : IAmazonImageSelectorProps)
  (events : list (AwsImageReader * Event)) :
  let c := run localeCompare sameObject mountReader p events in
  (Forall (fun happening =>
             match happening.2 with DidUpdate _ => False | _ => True end)
     events ->
   latestRegion (streams c) = None)
  /\ (latestRegion (streams c) = None ->
      onChangeLog c = []
      /\ packageImages (state c) = None
      /\ searchResults (state c) = None).
Proof.
  intros c. split.
  - subst c. unfold run.
    assert (latestRegion
              (streams (componentDidMount localeCompare mountReader p))
            = None) as Hmount
      by (destruct (componentDidMount_fields localeCompare mountReader p)
            as (_ & _ & -> & _); reflexivity).
    revert Hmount.
    generalize (componentDidMount localeCompare mountReader p).
    induction events as [|[reader e] events IH]; intros c Hc Hnone;
      [exact Hc|].
    simpl. apply Forall_cons in Hnone as [He Hnone].
    apply IH; [|exact Hnone]. simpl in He.
    clear IH Hnone. step_cases sameObject e; step_close.
  - intros Hnone.
    assert (latestRegion (streams c) = None ->
            onChangeLog c = [] /\ packageImages (state c) = None
            /\ searchResults (state c) = None
            /\ regionInner (streams c) = None) as H.
    { subst c.
      apply (run_invariant localeCompare sameObject
               (fun c =>
                  latestRegion (streams c) = None ->
                  onChangeLog c = [] /\ packageImages (state c) = None
                  /\ searchResults (state c) = None
                  /\ regionInner (streams c) = None)).
      - intros reader p' _.
        destruct (componentDidMount_fields localeCompare reader p')
          as (_ & -> & _ & _ & _ & _ & -> & _ & _ & ->). auto.
      - intros reader e c. apply step_before_first_update. }
    destruct (H Hnone) as (H1 & H2 & H3 & _). auto.
Qed.

End Lists.

(** *** A synthesized image as the selection *)




(** *** What is rendered *)

(** X21. In search mode, the select tells the user to enter at least 3
    characters exactly when [searchForImages] would send nothing for the
    search string of the state: the hint of [render] and the short-circuit
    of the search agree on what is too short. *)
Theorem search_hint_agrees_with_searchForImages
  (p : IAmazonImageSelectorProps) (s : IAmazonImageSelectorState)
  (reader : AwsImageReader) :
  selectionMode s = searchAllImagesMode ->
  (select_noResultsText (rendered_select (render p s))
     = Some "Please enter at least 3 characters"
   <-> (searchForImages (searchString s) reader).1 = []).
Proof.
  intros Hmode. unfold render. rewrite Hmode. cbn [rendered_select select_noResultsText].
  rewrite tooShort_is_length.
  rewrite (proj1 (searchForImages_asks_from_three_characters_aux
                    (searchString s) reader)).
  destruct (String.length (searchString s) <? 3)%nat eqn:Hshort.
  - apply Nat.ltb_lt in Hshort. tauto.
  - apply Nat.ltb_ge in Hshort.
    split; [|lia]. destruct (isSearching s); intros H; discriminate H.
Qed.

Lemma search_hint_agrees_with_searchForImages_witness :
  let s :=
    {| errorMessage := None; selectionMode := searchAllImagesMode;
       searchString := "am"; searchResults := Some []; isSearching := false;
       packageImages := None; isLoadingPackageImages := true |} in
  select_noResultsText
    (rendered_select (render (propsOf Undefined "us-east-1") s))
  = Some "Please enter at least 3 characters".
Proof.
  intros s.
  apply (search_hint_agrees_with_searchForImages
           (propsOf Undefined "us-east-1") s
           (readerOf (Fulfilled []) (Rejected "offline")) eq_refl).
  reflexivity.
Defined.

Section Rendering.

Variable localeCompare : string -> string -> Z.
Variable sameObject : IAmazonImage -> IAmazonImage -> bool.


End Rendering.

(** X23. The message beside an option and the region filter read the same
    entry differently. When the renderer shows an identifier, it is the
    first one of the entry for the region, not empty, and the image passes
    the filter; but an image whose entry for the region is an empty list
    passes the filter and is shown as not found. The image synthesized
    for a raw identifier is shown with that identifier in its region. *)
Theorem option_message_and_region_filter (credentials region : string)
  (image : IAmazonImage) :
  (forall imageId,
     (ImageOptionRenderer credentials region image).2
       = "(" +:+ imageId +:+ ")" ->
     exists more,
       amis image !! region = Some (imageId :: more)
       /\ imageId <> "" /\ hasAmiIn region image = true)
  /\ (amis image !! region = Some [] ->
      hasAmiIn region image = true
      /\ (ImageOptionRenderer credentials region image).2
         = " - not found in " +:+ credentials +:+ "/" +:+ region)
  /\ (forall typed,
        typed <> "" ->
        ImageOptionRenderer credentials region (fakeImageFor typed region)
        = (typed, "(" +:+ typed +:+ ")")).
Proof.
  split; [|split].
  - intros imageId. unfold ImageOptionRenderer, firstAmiIn, hasAmiIn.
    destruct (amis image !! region) as [[|first more]|]; simpl;
      try (intros H; discriminate H).
    destruct first as [|c first]; simpl; [intros H; discriminate H|].
    intros H. exists more.
    assert (String c first = imageId) as <-.
    { change ("(" +:+ String c first +:+ ")")
        with (String "(" (String c first +:+ ")")) in H.
      change ("(" +:+ imageId +:+ ")")
        with (String "(" (imageId +:+ ")")) in H.
      injection H as H. revert H. generalize (String c first) as a.
      intros a. revert imageId.
      induction a as [|x a IH]; intros [|y b] H;
        try reflexivity; rewrite ?append_cons in H.
      - change ("" +:+ ")") with ")" in H. injection H as <- H.
        destruct b; discriminate H.
      - change ("" +:+ ")") with ")" in H. injection H as <- H.
        destruct a; discriminate H.
      - injection H as <- H. f_equal. now apply IH. }
    split; [reflexivity|]. split; [discriminate | reflexivity].
  - intros Hempty. unfold ImageOptionRenderer, firstAmiIn, hasAmiIn.
    rewrite Hempty. split; reflexivity.
  - intros typed Hsome. unfold ImageOptionRenderer, firstAmiIn, fakeImageFor.
    simpl. rewrite lookup_singleton_eq.
    destruct typed; [contradiction | reflexivity].
Qed.

(** *** The package list and a selection made elsewhere *)

Section PackageSubscriber.

Variable sameObject : IAmazonImage -> IAmazonImage -> bool.




End PackageSubscriber.


